(** * ds.py: a terminal chat client for the DeepSeek API

    A shallow embedding of [src/ds.py]: the configuration manager
    ([ConfigManager]), the exit handlers ([handle_exit], [exception_hook],
    the [atexit] finalizer) and [main] with its chat loop, followed by the
    properties of the session lifecycle, of the save-once flag and of the
    streamed turn.

    Conventions of the model:
    - a Python [str] is the Rocq [string] of its UTF-8 text (the fixed
      messages of the program are kept as they are in the source);
    - a finite Python [float] is modelled by the rational it denotes;
    - [json.dump] followed by [json.load] is the identity on a transcript, so
      a JSON file is modelled by the value it holds;
    - the text of [settings.py] is modelled by what [ast.parse] makes of it;
    - [settings.py] and [latest.json] live next to the script; the archive
      files are written to the working directory, a flat directory of files;
    - the process is single-threaded; in a run ([run], [execute]) signals and
      errors are delivered at the points where the program waits: the
      prompt, the request, the stream. A signal that arrives while
      [save_data] runs is modelled apart ([save_data_interrupted]). *)

From Stdlib Require Import QArith Ascii String.
From stdpp Require Import base strings list gmap.

#[local] Set Warnings "-register-all".
Local Open Scope Z_scope.
Local Open Scope string_scope.

(** ** Python values *)

(** A [float]: a finite one is modelled by the rational it denotes; the
    infinities and the not-a-number are what [1e999], [float('inf')] and
    [float('nan')] give. *)
Inductive float :=
  | Finite (x : Q)
  | Inf (negative : bool)
  | NaN.
Coercion Finite : Q >-> float.

(** [-x] *)
Definition float_opp (x : float) : float :=
  match x with
  | Finite q => Finite (Qopp q)
  | Inf negative => Inf (negb negative)
  | NaN => NaN
  end.

(** [x == y]; the not-a-number equals nothing. *)
Definition float_eqb (x y : float) : bool :=
  match x, y with
  | Finite a, Finite b => Qeq_bool a b
  | Inf a, Inf b => Bool.eqb a b
  | _, _ => false
  end.

Definition float_is_zero (x : float) : bool :=
  match x with
  | Finite q => Z.eqb (Qnum q) 0
  | Inf _ | NaN => false
  end.

(** The values a literal can denote; a [bytes] is kept as the string of
    its bytes. *)
Inductive value :=
  | VNone
  | VBool (b : bool)
  | VInt (n : Z)
  | VFloat (x : float)
  | VStr (s : string)
  | VList (xs : list value)
  | VTuple (xs : list value)
  | VSet (xs : list value)
  | VDict (items : list (value * value))
  | VComplex (re im : float)
  | VBytes (b : string)
  | VEllipsis.

(** A [dict] keeps its items in insertion order. *)
Definition dict := list (value * value).

(** [bool(v)], the truth value Python's [if v:] tests. *)
Definition truthy (v : value) : bool :=
  match v with
  | VNone => false
  | VBool b => b
  | VInt n => negb (Z.eqb n 0)
  | VFloat x => negb (float_is_zero x)
  | VStr s => negb (String.eqb s "")
  | VList xs | VTuple xs | VSet xs => negb (bool_decide (xs = []))
  | VDict items => negb (bool_decide (items = []))
  | VComplex re im => negb (float_is_zero re && float_is_zero im)
  | VBytes b => negb (String.eqb b "")
  | VEllipsis => true
  end.

(** [v is not None] *)
Definition is_not_None (v : value) : bool :=
  match v with VNone => false | _ => true end.

(** [v == s] for a string literal [s]. *)
Definition eq_str (v : value) (s : string) : bool :=
  match v with VStr t => String.eqb t s | _ => false end.

(** Numbers compare by value across [bool], [int], [float] and [complex]:
    the real and the imaginary part of a number. *)
Definition numeric (v : value) : option (float * float) :=
  match v with
  | VBool b => Some (Finite (inject_Z (Z.b2z b)), Finite 0)
  | VInt n => Some (Finite (inject_Z n), Finite 0)
  | VFloat x => Some (x, Finite 0)
  | VComplex re im => Some (re, im)
  | _ => None
  end.

(** Equality of two hashable values, as a [dict] or a [set] sees its keys. *)
Fixpoint key_eqb (a b : value) : bool :=
  match numeric a, numeric b with
  | Some x, Some y => float_eqb x.1 y.1 && float_eqb x.2 y.2
  | Some _, None | None, Some _ => false
  | None, None =>
      match a, b with
      | VNone, VNone => true
      | VEllipsis, VEllipsis => true
      | VStr s, VStr t => String.eqb s t
      | VBytes s, VBytes t => String.eqb s t
      | VTuple xs, VTuple ys =>
          (fix all2 (xs ys : list value) : bool :=
             match xs, ys with
             | [], [] => true
             | x :: xs', y :: ys' => key_eqb x y && all2 xs' ys'
             | _, _ => false
             end) xs ys
      | _, _ => false
      end
  end.

(** Lists, sets and dicts cannot be hashed; a tuple can when its elements can. *)
Fixpoint hashable (v : value) : bool :=
  match v with
  | VNone | VBool _ | VInt _ | VFloat _ | VStr _
  | VComplex _ _ | VBytes _ | VEllipsis => true
  | VTuple xs => forallb hashable xs
  | VList _ | VSet _ | VDict _ => false
  end.

(** [d.get(k)] *)
Fixpoint dict_lookup (k : value) (d : dict) : option value :=
  match d with
  | [] => None
  | (k', v) :: d' => if key_eqb k' k then Some v else dict_lookup k d'
  end.

(** [d[k] = v]: an existing key keeps its place, a new one goes last. *)
Fixpoint dict_set (k v : value) (d : dict) : dict :=
  match d with
  | [] => [(k, v)]
  | (k', v') :: d' =>
      if key_eqb k' k then (k', v) :: d' else (k', v') :: dict_set k v d'
  end.

(** [k in d] *)
Definition dict_contains (k : value) (d : dict) : bool :=
  bool_decide (is_Some (dict_lookup k d)).

(** [d.get(k, default)] *)
Definition dict_get (k : string) (default : value) (d : dict) : value :=
  match dict_lookup (VStr k) d with
  | Some v => v
  | None => default
  end.

(** [s.add(x)] on a set kept as the list of its distinct elements, in the
    order they came in. *)
Definition set_add (x : value) (s : list value) : list value :=
  if existsb (fun y => key_eqb y x) s then s else s ++ [x].

(** ** Errors *)

Inductive exn :=
  | FileNotFoundError
  | JSONDecodeError
  | SyntaxError
  | ValueError
  | TypeError
  | AttributeError
  | KeyError
  | EOFError
  | KeyboardInterrupt
  | APIError
  | OpenAIError
  | OverflowError.

Inductive result (A : Type) :=
  | Ok (a : A)
  | Err (e : exn).
Arguments Ok {A} a.
Arguments Err {A} e.

Definition result_bind {A B} (r : result A) (k : A → result B) : result B :=
  match r with
  | Ok a => k a
  | Err e => Err e
  end.

(** [float(n)] for an [int]: the nearest float, a tie going to the even
    one; an [OverflowError] beyond the largest float. *)
Definition float_of_Z (n : Z) : result float :=
  let a := Z.abs n in
  let e := Z.max 0 (Z.log2 a - 52) in
  let q := Z.shiftr a e in
  let r := a - Z.shiftl q e in
  let half := Z.shiftl 1 (e - 1) in
  let up := negb (Z.eqb e 0) && (Z.ltb half r || (Z.eqb half r && Z.odd q)) in
  let m := Z.shiftl (if up then q + 1 else q) e in
  if Z.leb (Z.shiftl 1 1024) m then Err OverflowError
  else Ok (Finite (inject_Z (Z.sgn n * m))).

(** ** The syntax tree of the configuration file

    The nodes [ast.parse] builds, as far as [_safe_load_config] and
    [ast.literal_eval] look at them; every other expression node is
    [OtherExpr], every other statement [OtherStmt]. A constant is what the
    parser made of a literal: [None], [True] or [False], a number without
    sign (an [int], a [float], which is infinite for a literal such as
    [1e999], or an imaginary number), a [str], a [bytes] or [...]. The key
    of a dict item is absent for a [**] unpacking. *)

Inductive constant :=
  | CNone
  | CBool (b : bool)
  | CInt (n : Z)
  | CFloat (x : float)
  | CStr (s : string)
  | CImag (y : float)
  | CBytes (b : string)
  | CEllipsis.

Inductive unaryop := UAdd | USub | Not | Invert.

Inductive binop := Add | Sub | OtherOp.

Inductive expr :=
  | Constant (c : constant)
  | Tuple (elts : list expr)
  | List (elts : list expr)
  | Set_ (elts : list expr)
  | Dict (items : list (option expr * expr))
  | UnaryOp (op : unaryop) (operand : expr)
  | Name (id : string)
  | Call (func : expr) (args : list expr) (keywords : list (option string * expr))
  | OtherExpr
  | BinOp (lhs : expr) (op : binop) (rhs : expr).

Inductive stmt :=
  | Assign (targets : list expr) (value : expr)
  | OtherStmt.

Definition value_of_constant (c : constant) : value :=
  match c with
  | CNone => VNone
  | CBool b => VBool b
  | CInt n => VInt n
  | CFloat x => VFloat x
  | CStr s => VStr s
  | CImag y => VComplex (Finite 0) y
  | CBytes b => VBytes b
  | CEllipsis => VEllipsis
  end.

(** [_convert_num]: an [int], [float] or [complex] constant; a [bool] is
    none of them. *)
Definition convert_num (node : expr) : result value :=
  match node with
  | Constant (CInt n) => Ok (VInt n)
  | Constant (CFloat x) => Ok (VFloat x)
  | Constant (CImag y) => Ok (VComplex (Finite 0) y)
  | _ => Err ValueError
  end.

(** [- operand] on a number *)
Definition py_neg (v : value) : value :=
  match v with
  | VInt n => VInt (Z.opp n)
  | VFloat x => VFloat (float_opp x)
  | VComplex re im => VComplex (float_opp re) (float_opp im)
  | _ => v
  end.

(** [_convert_signed_num]: a number, or a sign in front of one. *)
Definition convert_signed_num (node : expr) : result value :=
  match node with
  | UnaryOp UAdd operand => convert_num operand
  | UnaryOp USub operand => result_bind (convert_num operand) (fun v => Ok (py_neg v))
  | _ => convert_num node
  end.

(** [lhs + rhs] and [lhs - rhs] for an [int] or a [float] on the left
    and a [complex] on the right, which here is an imaginary literal, whose
    real part is [0.0]; the [int] is converted to a [float] first. Anything
    else is a malformed node. *)
Definition add_complex (op : binop) (lhs rhs : value) : result value :=
  match rhs with
  | VComplex _ im =>
      let im' := match op with Sub => float_opp im | _ => im end in
      match lhs with
      | VInt n => result_bind (float_of_Z n) (fun x => Ok (VComplex x im'))
      | VFloat x => Ok (VComplex x im')
      | _ => Err ValueError
      end
  | _ => Err ValueError
  end.

(** [ast.literal_eval]: constants, tuples, lists, sets, dicts, signed
    numbers, the sum or difference of a real and an imaginary number, and
    [set()]; any other node is a [ValueError] ("malformed node or string"),
    an unhashable key or set element a [TypeError]. Nothing is called or
    looked up. *)
Fixpoint literal_eval (e : expr) : result value :=
  match e with
  | Constant c => Ok (value_of_constant c)
  | Tuple elts =>
      result_bind
        ((fix convert_all (es : list expr) : result (list value) :=
            match es with
            | [] => Ok []
            | e' :: es' =>
                result_bind (literal_eval e') (fun v =>
                result_bind (convert_all es') (fun vs => Ok (v :: vs)))
            end) elts)
        (fun vs => Ok (VTuple vs))
  | List elts =>
      result_bind
        ((fix convert_all (es : list expr) : result (list value) :=
            match es with
            | [] => Ok []
            | e' :: es' =>
                result_bind (literal_eval e') (fun v =>
                result_bind (convert_all es') (fun vs => Ok (v :: vs)))
            end) elts)
        (fun vs => Ok (VList vs))
  | Set_ elts =>
      result_bind
        ((fix build (es : list expr) (acc : list value) : result (list value) :=
            match es with
            | [] => Ok acc
            | e' :: es' =>
                result_bind (literal_eval e') (fun v =>
                if hashable v then build es' (set_add v acc) else Err TypeError)
            end) elts [])
        (fun vs => Ok (VSet vs))
  | Call (Name id) [] [] => if String.eqb id "set" then Ok (VSet []) else Err ValueError
  | Dict items =>
      result_bind
        ((fix build (kvs : list (option expr * expr)) (acc : dict) : result dict :=
            match kvs with
            | [] => Ok acc
            | (None, _) :: _ => Err ValueError
            | (Some ke, ve) :: kvs' =>
                result_bind (literal_eval ke) (fun k =>
                result_bind (literal_eval ve) (fun v =>
                if hashable k then build kvs' (dict_set k v acc) else Err TypeError))
            end) items [])
        (fun d => Ok (VDict d))
  | BinOp lhs Add rhs =>
      result_bind (convert_signed_num lhs) (fun l =>
      result_bind (convert_num rhs) (fun r => add_complex Add l r))
  | BinOp lhs Sub rhs =>
      result_bind (convert_signed_num lhs) (fun l =>
      result_bind (convert_num rhs) (fun r => add_complex Sub l r))
  | UnaryOp _ _ | BinOp _ OtherOp _ | Name _ | Call _ _ _ | OtherExpr =>
      convert_signed_num e
  end.

Definition is_number (e : expr) : bool :=
  match e with
  | Constant (CInt _ | CFloat _ | CImag _) => true
  | _ => false
  end.

Definition is_signed_number (e : expr) : bool :=
  match e with
  | UnaryOp (UAdd | USub) operand => is_number operand
  | _ => is_number e
  end.

(** The expressions built from literal nodes only. *)
Fixpoint is_literal (e : expr) : bool :=
  match e with
  | Constant _ => true
  | Tuple elts | List elts | Set_ elts => forallb is_literal elts
  | Dict items =>
      forallb (fun kv =>
                 match kv with
                 | (Some ke, ve) => is_literal ke && is_literal ve
                 | (None, _) => false
                 end) items
  | UnaryOp (UAdd | USub) operand => is_number operand
  | BinOp lhs (Add | Sub) rhs => is_signed_number lhs && is_number rhs
  | Call (Name id) [] [] => String.eqb id "set"
  | UnaryOp _ _ | BinOp _ _ _ | Name _ | Call _ _ _ | OtherExpr => false
  end.

(** ** Files and the outside world *)

Record Message := { role : string; content : string }.

(** What [ast.parse] makes of the text of [settings.py]. *)
Inductive source :=
  | Unparsable
  | Module (body : list stmt).

(** What [json.load] makes of the text of a transcript file. *)
Inductive json_text :=
  | NotJson
  | Json (ms : list Message).

(** The two files next to the script, the working directory (a flat
    directory of archive files), the date of the day, and what the
    constructor of the client does in this environment with a key and a
    base URL: the error it raises, if any (it looks for a key in the
    environment when it is given none). *)
Record World := {
  script_dir : string;
  settings : option source;
  latest : option json_text;
  cwd : gmap string (list Message);
  today : string;
  client_error : value → value → option exn;
}.

Definition path_join (dir name : string) : string := dir +:+ "/" +:+ name.

Inductive fs_event :=
  | ReadLatest
  | WriteLatest (ms : list Message)
  | WriteArchive (name : string) (ms : list Message)
  | WriteSettings (src : source).

(** One piece of standard output: a text, [str(v)] of a value, or the help
    of the argument parser. *)
Inductive out_item :=
  | Text (s : string)
  | Str (v : value)
  | HelpText.

(** ** Control: return, [SystemExit], any other exception *)

Inductive signal := SIGINT | SIGTERM.

Inductive exit_message :=
  | ConfigMissing (path : string)
  | ConfigIncomplete (missing : gset string)
  | ConfigParseFailed (e : exn).

Inductive exit_arg :=
  | Status (n : Z)
  | Message_ (m : exit_message).

(** One piece of standard error: the text given to [sys.exit], the
    traceback of an error as [sys.__excepthook__] reports it, or the usage
    and the error of the argument parser. *)
Inductive err_item :=
  | ExitText (m : exit_message)
  | Traceback (e : exn)
  | UsageError.

Inductive outcome (A : Type) :=
  | Return (a : A)
  | SystemExit (arg : exit_arg)
  | Raise (e : exn).
Arguments Return {A} a.
Arguments SystemExit {A} arg.
Arguments Raise {A} e.

(** ** ConfigManager: loading and validating the configuration *)

Record ConfigManager := {
  messages : list Message;
  config : dict;
  _saved : bool;
}.

Definition config_path (w : World) : string := path_join (script_dir w) "settings.py".
Definition messages_path (w : World) : string := path_join (script_dir w) "latest.json".

(** The loop of [_safe_load_config] over [parsed.body]. *)
Fixpoint find_DATABASE (body : list stmt) : result value :=
  match body with
  | [] => Err ValueError
  | Assign [Name id] v :: rest =>
      if String.eqb id "DATABASE" then literal_eval v else find_DATABASE rest
  | _ :: rest => find_DATABASE rest
  end.

Definition _safe_load_config (w : World) : result value :=
  match settings w with
  | None => Err FileNotFoundError
  | Some Unparsable => Err SyntaxError
  | Some (Module body) => find_DATABASE body
  end.

Definition required_keys : gset string :=
  {[ "api_key"; "base_url"; "model"; "temperature"; "memory" ]}.

(** [k in v] for a string [k]: a key of a dict, an element of a list, tuple
    or set, a substring of a string; a [TypeError] on anything else. *)
Definition py_in (k : string) (v : value) : result bool :=
  match v with
  | VDict d => Ok (dict_contains (VStr k) d)
  | VList xs | VTuple xs | VSet xs => Ok (existsb (fun x => key_eqb x (VStr k)) xs)
  | VStr s => Ok (bool_decide (is_Some (String.index 0 k s)))
  | VNone | VBool _ | VInt _ | VFloat _ | VComplex _ _ | VBytes _ | VEllipsis =>
      Err TypeError
  end.

(** [all(k in v for k in keys)] *)
Fixpoint all_in (keys : list string) (v : value) : result bool :=
  match keys with
  | [] => Ok true
  | k :: keys' =>
      result_bind (py_in k v) (fun b => if b then all_in keys' v else Ok false)
  end.

(** [v.keys()], the string keys among them. *)
Definition py_keys (v : value) : result (gset string) :=
  match v with
  | VDict d =>
      Ok (list_to_set (omap (fun kv => match kv.1 with VStr s => Some s | _ => None end) d))
  | _ => Err AttributeError
  end.

(** [v[k] = x] for a string [k] *)
Definition py_setitem (k : string) (x : value) (v : value) : result dict :=
  match v with
  | VDict d => Ok (dict_set (VStr k) x d)
  | _ => Err TypeError
  end.

(** [_validate_config]: the [try] block catches [Exception], which
    [SystemExit] is not. *)
Definition _validate_config (w : World) : outcome dict :=
  match settings w with
  | None => SystemExit (Message_ (ConfigMissing (config_path w)))
  | Some _ =>
      let body :=
        result_bind (_safe_load_config w) (fun cfg =>
        result_bind (all_in (elements required_keys) cfg) (fun all_present =>
        if all_present
        then result_bind (py_setitem "stream" (VBool true) cfg) (fun d => Ok (Return d))
        else result_bind (py_keys cfg) (fun ks =>
             Ok (SystemExit (Message_ (ConfigIncomplete (required_keys ∖ ks))))))) in
      match body with
      | Ok o => o
      | Err e => SystemExit (Message_ (ConfigParseFailed e))
      end
  end.

(** [ConfigManager.__init__] *)
Definition ConfigManager_init (w : World) : outcome ConfigManager :=
  match _validate_config w with
  | Return cfg => Return {| messages := []; config := cfg; _saved := false |}
  | SystemExit a => SystemExit a
  | Raise e => Raise e
  end.

(** ** The running process *)

Record Process := {
  manager : ConfigManager;
  world : World;
  stdout : list out_item;
  stderr : list err_item;
  journal : list fs_event;
}.

Definition M (A : Type) : Type := Process → outcome A * Process.

Definition ret {A} (a : A) : M A := fun p => (Return a, p).

Definition bind {A B} (m : M A) (k : A → M B) : M B := fun p =>
  match m p with
  | (Return a, p') => k a p'
  | (SystemExit arg, p') => (SystemExit arg, p')
  | (Raise e, p') => (Raise e, p')
  end.

Notation "x <- m ;; k" := (bind m (fun x => k))
  (at level 100, m at next level, right associativity).
Notation "m ;;; k" := (bind m (fun _ => k))
  (at level 100, right associativity).

Definition raise {A} (e : exn) : M A := fun p => (Raise e, p).
Definition sys_exit {A} (arg : exit_arg) : M A := fun p => (SystemExit arg, p).
Definition when (b : bool) (m : M unit) : M unit := if b then m else ret tt.

Definition get_manager : M ConfigManager := fun p => (Return (manager p), p).
Definition get_world : M World := fun p => (Return (world p), p).

Definition set_manager (f : ConfigManager → ConfigManager) : M unit := fun p =>
  (Return tt, {| manager := f (manager p); world := world p;
                 stdout := stdout p; stderr := stderr p; journal := journal p |}).

Definition set_world (f : World → World) : M unit := fun p =>
  (Return tt, {| manager := manager p; world := f (world p);
                 stdout := stdout p; stderr := stderr p; journal := journal p |}).

Definition record (ev : fs_event) : M unit := fun p =>
  (Return tt, {| manager := manager p; world := world p;
                 stdout := stdout p; stderr := stderr p;
                 journal := journal p ++ [ev] |}).

Definition write (item : out_item) : M unit := fun p =>
  (Return tt, {| manager := manager p; world := world p;
                 stdout := stdout p ++ [item]; stderr := stderr p;
                 journal := journal p |}).

Definition write_err (item : err_item) : M unit := fun p =>
  (Return tt, {| manager := manager p; world := world p;
                 stdout := stdout p; stderr := stderr p ++ [item];
                 journal := journal p |}).

(** The line feed [print] ends a line with. *)
Definition nl : string := String "010"%char EmptyString.

(** [print(s)] and [print(s, end='')] *)
Definition print (s : string) : M unit := write (Text (s +:+ nl)).
Definition print_noend (s : string) : M unit := write (Text s).

Definition set_messages (ms : list Message) (m : ConfigManager) : ConfigManager :=
  {| messages := ms; config := config m; _saved := _saved m |}.
Definition set_config (d : dict) (m : ConfigManager) : ConfigManager :=
  {| messages := messages m; config := d; _saved := _saved m |}.
Definition set_saved (b : bool) (m : ConfigManager) : ConfigManager :=
  {| messages := messages m; config := config m; _saved := b |}.

(** [manager.config[k] = v] *)
Definition config_setitem (k : string) (v : value) : M unit :=
  set_manager (fun m => set_config (dict_set (VStr k) v (config m)) m).

(** [manager.config[k]] *)
Definition config_getitem (k : string) : M value :=
  m <- get_manager ;;
  match dict_lookup (VStr k) (config m) with
  | Some v => ret v
  | None => raise KeyError
  end.

(** [manager.messages.append(msg)] *)
Definition append (msg : Message) : M unit :=
  set_manager (fun m => set_messages (messages m ++ [msg]) m).

(** ** ConfigManager: the transcript *)

Definition set_latest (t : json_text) (w : World) : World :=
  {| script_dir := script_dir w; settings := settings w; latest := Some t;
     cwd := cwd w; today := today w; client_error := client_error w |}.
Definition set_settings (src : source) (w : World) : World :=
  {| script_dir := script_dir w; settings := Some src; latest := latest w;
     cwd := cwd w; today := today w; client_error := client_error w |}.
Definition set_cwd (name : string) (ms : list Message) (w : World) : World :=
  {| script_dir := script_dir w; settings := settings w; latest := latest w;
     cwd := <[name := ms]> (cwd w); today := today w;
     client_error := client_error w |}.

Definition has_char (c : ascii) (s : string) : bool :=
  existsb (Ascii.eqb c) (list_ascii_of_string s).

(** [open(name, 'w')] on a name relative to the working directory: a NUL
    character is refused, and a name with a [/] points into a subdirectory,
    which the flat working directory does not have. *)
Definition open_for_writing (name : string) : M unit :=
  if has_char "000"%char name then raise ValueError
  else if has_char "/"%char name then raise FileNotFoundError
  else ret tt.

(** In the UTF-8 text of a [str] a character is one byte, or a lead byte
    and the continuation bytes ([10xxxxxx]) that follow it. *)
Definition is_continuation (c : ascii) : bool :=
  let n := nat_of_ascii c in
  (128 <=? n)%nat && (n <? 192)%nat.

(** [s[:n]]: the first [n] characters of [s]. *)
Fixpoint take_chars (n : nat) (s : string) : string :=
  match s with
  | EmptyString => EmptyString
  | String c s' =>
      if is_continuation c then String c (take_chars n s')
      else match n with
           | O => EmptyString
           | S n' => String c (take_chars n' s')
           end
  end.

(** [self.messages[0]['content'][:32] if self.messages else None] *)
Definition first_message (ms : list Message) : option string :=
  match ms with
  | m :: _ => Some (take_chars 32 (content m))
  | [] => None
  end.

(** [f"{current_date}_{first_message}.json"], where [None] prints as [None]. *)
Definition archive_name (current_date : string) (first : option string) : string :=
  current_date +:+ "_" +:+ default "None" first +:+ ".json".

Definition save_messages : M unit :=
  w <- get_world ;;
  m <- get_manager ;;
  let current_date := today w in
  let new_file_name := archive_name current_date (first_message (messages m)) in
  open_for_writing new_file_name ;;;
  set_world (set_cwd new_file_name (messages m)) ;;;
  record (WriteArchive new_file_name (messages m)) ;;;
  set_manager (set_messages []).

Definition save_data : M unit :=
  m <- get_manager ;;
  w <- get_world ;;
  when (negb (_saved m) && truthy (dict_get "memory" (VBool true) (config m)))
    (set_world (set_latest (Json (messages m))) ;;;
     record (WriteLatest (messages m)) ;;;
     print ("数据已保存到 " +:+ messages_path w)) ;;;
  set_manager (set_saved true).

Definition show_status : M unit :=
  m <- get_manager ;;
  w <- get_world ;;
  (fix each (items : dict) : M unit :=
     match items with
     | [] => ret tt
     | (key, value) :: items' =>
         write (Str key) ;;; write (Text ": ") ;;; write (Str value) ;;;
         write (Text nl) ;;;
         each items'
     end) (config m) ;;;
  print ("消息存储路径: " +:+ messages_path w).

(** ** The exit handlers *)

Definition handle_exit {A} : M A :=
  save_data ;;;
  sys_exit (Status 0).

Definition exception_hook (e : exn) : M unit :=
  save_data ;;;
  write_err (Traceback e) ;;;
  sys_exit (Status 1).

(** [save_data] when a signal arrives while it runs, after the file is
    written and before line 82 sets the flag: the handler runs there at
    once, and line 82 of the interrupted call is never reached. *)
Definition save_data_interrupted {A} : M A :=
  m <- get_manager ;;
  w <- get_world ;;
  when (negb (_saved m) && truthy (dict_get "memory" (VBool true) (config m)))
    (set_world (set_latest (Json (messages m))) ;;;
     record (WriteLatest (messages m)) ;;;
     print ("数据已保存到 " +:+ messages_path w)) ;;;
  handle_exit.

(** ** The command line *)

(** What the user typed: which flags are present, and the values given to
    [-k] and [-t]. *)
Record Argv := {
  opt_n : bool;
  opt_k : option string;
  opt_b : bool;
  opt_r : bool;
  opt_m : bool;
  opt_s : bool;
  opt_t : option float;
  opt_d : bool;
}.

(** [action='store_true']: [True] when the flag is present, [False] when it
    is not. *)
Definition store_true (present : bool) : value := VBool present.

(** An option with a value: the value when given, else the default. *)
Definition store (given : option value) (default : value) : value :=
  match given with
  | Some v => v
  | None => default
  end.

Module Namespace.
Record t := {
  new : value;
  key : value;
  beta : value;
  reasoner : value;
  memory : value;
  status : value;
  temperature : value;
  no_stream : value;
}.
End Namespace.

Definition parse_args (argv : Argv) : Namespace.t :=
  {| Namespace.new := store_true (opt_n argv);
     Namespace.key := store (VStr <$> opt_k argv) VNone;
     Namespace.beta := store_true (opt_b argv);
     Namespace.reasoner := store_true (opt_r argv);
     Namespace.memory := store_true (opt_m argv);
     Namespace.status := store_true (opt_s argv);
     Namespace.temperature := store (VFloat <$> opt_t argv) (VFloat (7 # 10));
     Namespace.no_stream := store_true (opt_d argv) |}.

(** What [parser.parse_args()] finds on the command line: the flags of a
    line it accepts, a request for help ([-h]), or a line it refuses (an
    unknown flag, [-k] without a value, a [-t] that is no float). *)
Inductive command_line :=
  | Flags (argv : Argv)
  | Help
  | Malformed.

(** Line 112, [args = parser.parse_args()]: the help goes to standard output
    and ends the process with status 0, a refused line puts the usage and
    the error on standard error and ends the process with status 2. *)
Definition parser_parse_args (line : command_line) : M Namespace.t :=
  match line with
  | Flags argv => ret (parse_args argv)
  | Help => write HelpText ;;; sys_exit (Status 0)
  | Malformed => write_err UsageError ;;; sys_exit (Status 2)
  end.

(** ** The chat service and the user *)

Record Request := {
  model : value;
  request_messages : list Message;
  stream : bool;
  temperature : value;
}.

(** [chunk.choices[0].delta] *)
Record chunk := {
  delta_reasoning_content : option string;
  delta_content : option string;
}.

(** What iterating the response yields next: a chunk, or a signal or an
    error while waiting for it. *)
Inductive stream_item :=
  | Delta (c : chunk)
  | StreamSignal (sg : signal)
  | StreamError (e : exn).

Inductive reply (A : Type) :=
  | Replied (a : A)
  | Failed (e : exn)
  | Interrupted (sg : signal).
Arguments Replied {A} a.
Arguments Failed {A} e.
Arguments Interrupted {A} sg.

(** [client.chat.completions.create], with [stream=True] and without. *)
Record Service := {
  create_stream : Request → reply (list stream_item);
  create : Request → reply string;
}.

(** What [prompt("User> ")] gives: a line, or a signal or an error while
    waiting for it. When the input is used up it raises [EOFError]. While
    the prompt is shown the interrupt is taken by [prompt_toolkit], which
    makes [prompt] raise [KeyboardInterrupt]; the handler of the program
    is not run. A termination signal runs the handler of the program. *)
Inductive prompted :=
  | Line (message : string)
  | PromptSignal (sg : signal)
  | PromptError (e : exn).

(** [s.lower()], on the letters A to Z. *)
Definition lower_char (c : ascii) : ascii :=
  let n := nat_of_ascii c in
  if (65 <=? n)%nat && (n <=? 90)%nat then ascii_of_nat (n + 32) else c.

Fixpoint lower (s : string) : string :=
  match s with
  | EmptyString => EmptyString
  | String c s' => String (lower_char c) (lower s')
  end.

(** The truth value of an optional fragment: absent and empty are false. *)
Definition fragment (o : option string) : option string :=
  match o with
  | Some s => if String.eqb s "" then None else Some s
  | None => None
  end.

Definition reasoning_finished : string := "==========Reasoning finished.==========".

(** The [for chunk in response] loop of the streamed turn. *)
Fixpoint consume (items : list stream_item) (reasoning_content content : string)
    : M string :=
  match items with
  | [] => ret content
  | Delta c :: rest =>
      match fragment (delta_reasoning_content c) with
      | Some r =>
          when (String.eqb reasoning_content "") (print_noend "Thinking :") ;;;
          print_noend r ;;;
          consume rest (reasoning_content +:+ r) content
      | None =>
          match fragment (delta_content c) with
          | Some a =>
              marker <- (if String.eqb reasoning_content ""
                         then (model <- config_getitem "model" ;;
                               ret (eq_str model "deepseek-reasoner"))
                         else ret false) ;;
              when marker (print "" ;;; print reasoning_finished) ;;;
              print_noend a ;;;
              consume rest reasoning_content (content +:+ a)
          | None => consume rest reasoning_content content
          end
      end
  | StreamSignal sg :: _ => handle_exit
  | StreamError e :: _ => raise e
  end.

(** A reply of the service, with the signal handler run when a signal
    arrives during the request. *)
Definition await {A} (r : reply A) : M A :=
  match r with
  | Replied a => ret a
  | Failed e => raise e
  | Interrupted sg => handle_exit
  end.

Definition streamed_turn (svc : Service) : M unit :=
  model <- config_getitem "model" ;;
  m <- get_manager ;;
  temperature <- config_getitem "temperature" ;;
  response <- await (create_stream svc
    {| model := model; request_messages := messages m; stream := true;
       temperature := temperature |}) ;;
  print "DeepSeek> " ;;;
  content <- consume response "" "" ;;
  print "" ;;;
  append {| role := "assistant"; content := content |}.

Definition plain_turn (svc : Service) : M unit :=
  model <- config_getitem "model" ;;
  m <- get_manager ;;
  temperature <- config_getitem "temperature" ;;
  response <- await (create svc
    {| model := model; request_messages := messages m; stream := false;
       temperature := temperature |}) ;;
  append {| role := "assistant"; content := response |} ;;;
  print ("DeepSeek> " +:+ response).

Definition is_quit (message : string) : bool :=
  bool_decide (lower message ∈ ["exit"; "quit"; "q"]).

(** The [while True] loop of [main], over what the prompt gives in turn. *)
Fixpoint chat_loop (svc : Service) (script : list prompted) : M unit :=
  match script with
  | [] => raise EOFError
  | Line message :: rest =>
      if is_quit message then ret tt
      else
        append {| role := "user"; content := message |} ;;;
        streaming <- config_getitem "stream" ;;
        (if truthy streaming then streamed_turn svc else plain_turn svc) ;;;
        chat_loop svc rest
  | PromptSignal SIGINT :: _ => raise KeyboardInterrupt
  | PromptSignal SIGTERM :: _ => handle_exit
  | PromptError e :: _ => raise e
  end.

(** ** main *)

(** The text of a float below zero. *)
Definition float_negative (x : float) : bool :=
  match x with
  | Finite q => Z.ltb (Qnum q) 0
  | Inf negative => negative
  | NaN => false
  end.

(** What the text of [str(x)] is parsed to, for a float [x] that is not
    below zero: a constant, or the name [inf] or [nan]. *)
Definition float_text (x : float) : expr :=
  match x with
  | Finite _ => Constant (CFloat x)
  | Inf _ => Name "inf"
  | NaN => Name "nan"
  end.

(** The real part inside the text of a complex number is written without
    [.0]: an integral value below [1e16] is read again as an [int]. *)
Definition real_text (x : float) : expr :=
  match x with
  | Finite q =>
      let q' := Qred q in
      if Pos.eqb (Qden q') 1 && Z.ltb (Qnum q') (10 ^ 16)
      then Constant (CInt (Qnum q'))
      else Constant (CFloat x)
  | Inf _ => Name "inf"
  | NaN => Name "nan"
  end.

(** The imaginary part, which ends with [j]. *)
Definition imag_text (y : float) : expr :=
  match y with
  | Finite _ => Constant (CImag y)
  | Inf _ => Name "infj"
  | NaN => Name "nanj"
  end.

Definition signed (text : float → expr) (x : float) : expr :=
  if float_negative x then UnaryOp USub (text (float_opp x)) else text x.

(** The expression the text of [str(v)] is parsed to when the file written
    with it is read again. *)
Fixpoint repr (v : value) : expr :=
  match v with
  | VNone => Constant CNone
  | VBool b => Constant (CBool b)
  | VInt n => if Z.ltb n 0 then UnaryOp USub (Constant (CInt (Z.opp n))) else Constant (CInt n)
  | VFloat x => signed float_text x
  | VComplex re im =>
      if float_is_zero re then signed imag_text im
      else if float_negative im
           then BinOp (signed real_text re) Sub (imag_text (float_opp im))
           else BinOp (signed real_text re) Add (imag_text im)
  | VStr s => Constant (CStr s)
  | VBytes b => Constant (CBytes b)
  | VEllipsis => Name "Ellipsis"
  | VList xs => List (map repr xs)
  | VTuple xs => Tuple (map repr xs)
  | VSet [] => Call (Name "set") [] []
  | VSet xs => Set_ (map repr xs)
  | VDict items =>
      Dict ((fix each (kvs : list (value * value)) : list (option expr * expr) :=
               match kvs with
               | [] => []
               | (k, v') :: kvs' => (Some (repr k), repr v') :: each kvs'
               end) items)
  end.

(** [with open(manager.messages_path, 'r')]: [manager.messages = json.load(file)] *)
Definition load_latest : M unit :=
  w <- get_world ;;
  match latest w with
  | None => raise FileNotFoundError
  | Some text =>
      record ReadLatest ;;;
      match text with
      | NotJson => raise JSONDecodeError
      | Json ms => set_manager (set_messages ms)
      end
  end.

Definition default_config (args : Namespace.t) : dict :=
  [ (VStr "api_key", Namespace.key args);
    (VStr "base_url", VStr "https://api.deepseek.com");
    (VStr "model", VStr "deepseek-chat");
    (VStr "temperature", Namespace.temperature args);
    (VStr "memory", VBool false) ].

(** [new_path.write_text(f"DATABASE = {default_config}\n")] *)
Definition write_new_config (args : Namespace.t) : M unit :=
  let src := Module [Assign [Name "DATABASE"] (repr (VDict (default_config args)))] in
  w <- get_world ;;
  set_world (set_settings src) ;;;
  record (WriteSettings src) ;;;
  print ("已创建新配置文件：" +:+ path_join (script_dir w) "settings.py").

(** Lines 114 to 117: the flags override the configuration for this run. *)
Definition override_config (args : Namespace.t) : M unit :=
  when (truthy (Namespace.beta args))
    (config_setitem "base_url" (VStr "https://beta.api.deepseek.com/beta")) ;;;
  when (truthy (Namespace.reasoner args))
    (config_setitem "model" (VStr "deepseek-reasoner")) ;;;
  when (is_not_None (Namespace.memory args))
    (config_setitem "memory" (Namespace.memory args)) ;;;
  when (truthy (Namespace.no_stream args))
    (config_setitem "stream" (VBool false)).

(** Lines 119 to 121: the transcript is loaded when memory is on. *)
Definition load_transcript : M unit :=
  m <- get_manager ;;
  when (truthy (dict_get "memory" (VBool true) (config m))) load_latest.

(** Line 144: [OpenAI(api_key=..., base_url=...)]. The client itself is
    the service the chat loop talks to; building it may fail. *)
Definition new_client (api_key base_url : value) : M unit :=
  w <- get_world ;;
  match client_error w api_key base_url with
  | Some e => raise e
  | None => ret tt
  end.

(** Lines 123 to 185: a new configuration, or else the archive, the status
    or the chat. *)
Definition dispatch (args : Namespace.t) (svc : Service) (script : list prompted) : M unit :=
  if truthy (Namespace.key args) then write_new_config args
  else
    when (truthy (Namespace.new args)) save_messages ;;;
    if truthy (Namespace.status args) then show_status
    else
      api_key <- config_getitem "api_key" ;;
      base_url <- config_getitem "base_url" ;;
      new_client api_key base_url ;;;
      chat_loop svc script.

(** [main] from line 114 on, for the namespace [args] that
    [parser.parse_args()] returned. *)
Definition main (args : Namespace.t) (svc : Service) (script : list prompted) : M unit :=
  override_config args ;;;
  load_transcript ;;;
  dispatch args svc script.

(** ** The life of the process *)

Record Final := {
  exit_status : Z;
  final_manager : option ConfigManager;
  final_world : World;
  final_stdout : list out_item;
  final_stderr : list err_item;
  final_journal : list fs_event;
}.

(** The exit status of [sys.exit(arg)]; a text is printed to standard error
    and gives status 1. *)
Definition status_of (arg : exit_arg) : Z :=
  match arg with
  | Status n => n
  | Message_ _ => 1
  end.

Definition report_exit (arg : exit_arg) : M unit :=
  match arg with
  | Status _ => ret tt
  | Message_ m => write_err (ExitText m)
  end.

(** [atexit.register(manager.save_data)] *)
Definition at_exit (p : Process) : Process := (save_data p).2.

Definition finish (n : Z) (p : Process) : Final :=
  {| exit_status := n; final_manager := Some (manager p); final_world := world p;
     final_stdout := stdout p; final_stderr := stderr p; final_journal := journal p |}.

(** The interpreter leaving on [SystemExit]: report, run the finalizers, exit. *)
Definition exit_process (arg : exit_arg) (p : Process) : Final :=
  finish (status_of arg) (at_exit (report_exit arg p).2).

(** The end of the script once the handlers are installed: a normal return,
    a [SystemExit] (also the one the signal handler raises), or an uncaught
    error, which goes to [sys.excepthook = exception_hook]. *)
Definition terminate (r : outcome unit * Process) : Final :=
  match r with
  | (Return _, p) => finish 0 (at_exit p)
  | (SystemExit arg, p) => exit_process arg p
  | (Raise e, p) =>
      match exception_hook e p with
      | (SystemExit arg, p') => exit_process arg p'
      | (Return _, p') => finish 1 (at_exit p')
      | (Raise e', p') => finish 1 (at_exit (write_err (Traceback e') p').2)
      end
  end.

(** The process when [main] is entered. *)
Definition start (mgr : ConfigManager) (w : World) : Process :=
  {| manager := mgr; world := w; stdout := []; stderr := []; journal := [] |}.

(** The whole script on a command line that the parser accepts:
    [manager = ConfigManager()] at module level, before any handler is
    installed, then the handlers, then [main()]. *)
Definition run (w : World) (argv : Argv) (svc : Service) (script : list prompted) : Final :=
  match ConfigManager_init w with
  | Return mgr =>
      terminate (main (parse_args argv) svc script (start mgr w))
  | SystemExit arg =>
      {| exit_status := status_of arg; final_manager := None; final_world := w;
         final_stdout := [];
         final_stderr := match arg with Message_ m => [ExitText m] | Status _ => [] end;
         final_journal := [] |}
  | Raise e =>
      {| exit_status := 1; final_manager := None; final_world := w;
         final_stdout := []; final_stderr := [Traceback e]; final_journal := [] |}
  end.

(** [main()] from its first line, on any command line. *)
Definition main_of (line : command_line) (svc : Service) (script : list prompted)
    : M unit :=
  args <- parser_parse_args line ;;
  main args svc script.

(** The whole script on any command line. *)
Definition execute (w : World) (line : command_line) (svc : Service)
    (script : list prompted) : Final :=
  match ConfigManager_init w with
  | Return mgr =>
      terminate (main_of line svc script (start mgr w))
  | SystemExit arg =>
      {| exit_status := status_of arg; final_manager := None; final_world := w;
         final_stdout := [];
         final_stderr := match arg with Message_ m => [ExitText m] | Status _ => [] end;
         final_journal := [] |}
  | Raise e =>
      {| exit_status := 1; final_manager := None; final_world := w;
         final_stdout := []; final_stderr := [Traceback e]; final_journal := [] |}
  end.

(** The writes of the latest-transcript file among the effects of a run. *)
Definition latest_writes (evs : list fs_event) : list (list Message) :=
  omap (fun ev => match ev with WriteLatest ms => Some ms | _ => None end) evs.

Definition reads_latest (evs : list fs_event) : bool :=
  existsb (fun ev => match ev with ReadLatest => true | _ => false end) evs.

(** ** What the rest of the process may do with the manager *)

Inductive operation :=
  | SetConfig (k : string) (v : value)
  | Append (msg : Message)
  | LoadLatest
  | SaveMessages
  | ShowStatus
  | SaveData.

Definition perform (op : operation) : M unit :=
  match op with
  | SetConfig k v => config_setitem k v
  | Append msg => append msg
  | LoadLatest => load_latest
  | SaveMessages => save_messages
  | ShowStatus => show_status
  | SaveData => save_data
  end.

(** The operations one after the other, going on after an error. *)
Fixpoint perform_all (ops : list operation) (p : Process) : Process :=
  match ops with
  | [] => p
  | op :: ops' => perform_all ops' (perform op p).2
  end.

(** ** Sample inputs *)

Definition sample_settings (memory : bool) (model : string) : source :=
  Module [Assign [Name "DATABASE"] (Dict [
    (Some (Constant (CStr "api_key")), Constant (CStr "x"));
    (Some (Constant (CStr "base_url")), Constant (CStr "https://api.deepseek.com"));
    (Some (Constant (CStr "model")), Constant (CStr model));
    (Some (Constant (CStr "temperature")), Constant (CFloat (7 # 10)));
    (Some (Constant (CStr "memory")), Constant (CBool memory)) ])].

Definition sample_world (memory : bool) (model : string) (latest : option json_text) : World :=
  {| script_dir := "/opt/ds"; settings := Some (sample_settings memory model);
     latest := latest; cwd := ∅; today := "2026-11-03";
     client_error := fun _ _ => None |}.

Definition sample_config (memory : bool) (model : string) : dict :=
  [ (VStr "api_key", VStr "x");
    (VStr "base_url", VStr "https://api.deepseek.com");
    (VStr "model", VStr model);
    (VStr "temperature", VFloat (7 # 10));
    (VStr "memory", VBool memory);
    (VStr "stream", VBool true) ].

Definition sample_process (memory : bool) (model : string) (ms : list Message) : Process :=
  start {| messages := ms; config := sample_config memory model; _saved := false |}
        (sample_world memory model None).

Definition no_flags : Argv :=
  {| opt_n := false; opt_k := None; opt_b := false; opt_r := false;
     opt_m := false; opt_s := false; opt_t := None; opt_d := false |}.

Definition flag_m : Argv :=
  {| opt_n := false; opt_k := None; opt_b := false; opt_r := false;
     opt_m := true; opt_s := false; opt_t := None; opt_d := false |}.

Definition flag_n_m : Argv :=
  {| opt_n := true; opt_k := None; opt_b := false; opt_r := false;
     opt_m := true; opt_s := false; opt_t := None; opt_d := false |}.

Definition flag_k (k : string) : Argv :=
  {| opt_n := false; opt_k := Some k; opt_b := false; opt_r := false;
     opt_m := false; opt_s := false; opt_t := None; opt_d := false |}.

Definition answer (s : string) : stream_item :=
  Delta {| delta_reasoning_content := None; delta_content := Some s |}.
Definition reasoning (s : string) : stream_item :=
  Delta {| delta_reasoning_content := Some s; delta_content := None |}.

(** A service that answers every request with the same chunks. *)
Definition streaming (items : list stream_item) : Service :=
  {| create_stream := fun _ => Replied items; create := fun _ => Failed APIError |}.

Definition user (s : string) : Message := {| role := "user"; content := s |}.
Definition assistant (s : string) : Message := {| role := "assistant"; content := s |}.

(** * Notions used in the statements *)

(** The test of [save_data]: not saved yet, and memory on. *)
Definition should_save (p : Process) : bool :=
  negb (_saved (manager p)) &&
  truthy (dict_get "memory" (VBool true) (config (manager p))).

(** The process after [save_data]. *)
Definition saved_state (p : Process) : Process :=
  if should_save p
  then {| manager := set_saved true (manager p);
          world := set_latest (Json (messages (manager p))) (world p);
          stdout := stdout p ++ [Text (("数据已保存到 " +:+ messages_path (world p)) +:+ nl)];
          stderr := stderr p;
          journal := journal p ++ [WriteLatest (messages (manager p))] |}
  else {| manager := set_saved true (manager p); world := world p;
          stdout := stdout p; stderr := stderr p; journal := journal p |}.


(** [keeps p q]: from [p] to [q] the configuration, the saved flag, the
    latest-transcript file, standard error and the reads and writes of the
    latest-transcript file are unchanged. The messages, standard output, the
    archive files and the settings file may have changed. *)
Record keeps (p q : Process) : Prop := {
  keeps_config : config (manager q) = config (manager p);
  keeps_saved : _saved (manager q) = _saved (manager p);
  keeps_latest : latest (world q) = latest (world p);
  keeps_dir : script_dir (world q) = script_dir (world p);
  keeps_stderr : stderr q = stderr p;
  keeps_writes : latest_writes (journal q) = latest_writes (journal p);
  keeps_reads : reads_latest (journal q) = reads_latest (journal p);
}.

(** [session m]: [m] returns or raises in a process that [keeps] the one it
    started in, or leaves through the signal handler, which saves and then
    exits with status 0. *)
Definition session {A} (m : M A) : Prop :=
  ∀ p, ∃ q, keeps p q ∧
    ((∃ a, m p = (Return a, q)) ∨
     (∃ e, m p = (Raise e, q)) ∨
     m p = (SystemExit (Status 0), saved_state q)).

(** An effect other than a read or a write of the latest-transcript file. *)
Definition elsewhere (ev : fs_event) : bool :=
  match ev with
  | ReadLatest | WriteLatest _ => false
  | WriteArchive _ _ | WriteSettings _ => true
  end.

(** The configuration after lines 114 to 117. *)
Definition apply_flags (args : Namespace.t) (d : dict) : dict :=
  let d1 := if truthy (Namespace.beta args)
            then dict_set (VStr "base_url") (VStr "https://beta.api.deepseek.com/beta") d
            else d in
  let d2 := if truthy (Namespace.reasoner args)
            then dict_set (VStr "model") (VStr "deepseek-reasoner") d1
            else d1 in
  let d3 := if is_not_None (Namespace.memory args)
            then dict_set (VStr "memory") (Namespace.memory args) d2
            else d2 in
  if truthy (Namespace.no_stream args)
  then dict_set (VStr "stream") (VBool false) d3
  else d3.

Definition with_config (d : dict) (p : Process) : Process :=
  {| manager := set_config d (manager p); world := world p;
     stdout := stdout p; stderr := stderr p; journal := journal p |}.

(** The process after the file was opened and read, and after its
    transcript was loaded. *)
Definition opened (p : Process) : Process :=
  {| manager := manager p; world := world p; stdout := stdout p;
     stderr := stderr p; journal := journal p ++ [ReadLatest] |}.

Definition loaded (ms : list Message) (p : Process) : Process :=
  {| manager := set_messages ms (manager p); world := world p; stdout := stdout p;
     stderr := stderr p; journal := journal p ++ [ReadLatest] |}.

(** Nothing was saved yet: the flag is down and the latest-transcript file
    was not written. *)
Definition unsaved (p : Process) : Prop :=
  _saved (manager p) = false ∧ latest_writes (journal p) = [] ∧ stderr p = [].

Definition traced (e : exn) (p : Process) : Process :=
  {| manager := manager p; world := world p; stdout := stdout p;
     stderr := stderr p ++ [Traceback e]; journal := journal p |}.

(** The process after [write_new_config]. *)
Definition written (args : Namespace.t) (p : Process) : Process :=
  let src := Module [Assign [Name "DATABASE"] (repr (VDict (default_config args)))] in
  {| manager := manager p;
     world := set_settings src (world p);
     stdout := stdout p ++ [Text (("已创建新配置文件：" +:+ config_path (world p)) +:+ nl)];
     stderr := stderr p;
     journal := journal p ++ [WriteSettings src] |}.

(** The string keys of a dict. *)
Definition string_keys (d : dict) : list string :=
  omap (fun kv => match kv.1 with VStr s => Some s | _ => None end) d.

(** All five required keys are keys of [d]. *)
Definition complete (d : dict) : bool :=
  forallb (fun k => dict_contains (VStr k) d) (elements required_keys).

(** Settings without the memory key, and settings whose value is a call. *)
Definition settings_without_memory : source :=
  Module [Assign [Name "DATABASE"] (Dict [
    (Some (Constant (CStr "api_key")), Constant (CStr "x"));
    (Some (Constant (CStr "base_url")), Constant (CStr "https://api.deepseek.com"));
    (Some (Constant (CStr "model")), Constant (CStr "deepseek-chat"));
    (Some (Constant (CStr "temperature")), Constant (CFloat (7 # 10))) ])].

Definition settings_with_a_call : source :=
  Module [Assign [Name "DATABASE"] (Call (Name "eval") [Constant (CStr "{}")] [])].

Definition world_with (src : source) : World :=
  {| script_dir := "/opt/ds"; settings := Some src; latest := None;
     cwd := ∅; today := "2026-11-03"; client_error := fun _ _ => None |}.

(** The answer fragments that reach the assistant message: those of the
    chunks whose reasoning fragment is absent or empty. *)
Fixpoint persisted (chunks : list chunk) : string :=
  match chunks with
  | [] => ""
  | c :: chunks' =>
      match fragment (delta_reasoning_content c) with
      | Some _ => persisted chunks'
      | None => default "" (fragment (delta_content c)) +:+ persisted chunks'
      end
  end.

(** All the answer fragments of a stream, in order. *)
Fixpoint answers (chunks : list chunk) : string :=
  match chunks with
  | [] => ""
  | c :: chunks' => default "" (delta_content c) +:+ answers chunks'
  end.

(** What the loop prints for the chunks, from the reasoning text seen so
    far and from whether the model is the reasoner. *)
Fixpoint shown (reasoner : bool) (chunks : list chunk) (reasoning_content : string)
    : list out_item :=
  match chunks with
  | [] => []
  | c :: chunks' =>
      match fragment (delta_reasoning_content c) with
      | Some r =>
          (if String.eqb reasoning_content "" then [Text "Thinking :"] else [])
          ++ Text r :: shown reasoner chunks' (reasoning_content +:+ r)
      | None =>
          match fragment (delta_content c) with
          | Some a =>
              (if String.eqb reasoning_content "" && reasoner
               then [Text nl; Text (reasoning_finished +:+ nl)] else [])
              ++ Text a :: shown reasoner chunks' reasoning_content
          | None => shown reasoner chunks' reasoning_content
          end
      end
  end.

Definition printed (items : list out_item) (p : Process) : Process :=
  {| manager := manager p; world := world p; stdout := stdout p ++ items;
     stderr := stderr p; journal := journal p |}.

Definition appended (msg : Message) (p : Process) : Process :=
  {| manager := set_messages (messages (manager p) ++ [msg]) (manager p);
     world := world p; stdout := stdout p; stderr := stderr p; journal := journal p |}.

(** Once reasoning text was seen, the loop only echoes the fragments. *)
Fixpoint echo (chunks : list chunk) : list out_item :=
  match chunks with
  | [] => []
  | c :: chunks' =>
      match fragment (delta_reasoning_content c) with
      | Some r => Text r :: echo chunks'
      | None =>
          match fragment (delta_content c) with
          | Some a => Text a :: echo chunks'
          | None => echo chunks'
          end
      end
  end.

Definition archived (name : string) (p : Process) : Process :=
  {| manager := set_messages [] (manager p);
     world := set_cwd name (messages (manager p)) (world p);
     stdout := stdout p; stderr := stderr p;
     journal := journal p ++ [WriteArchive name (messages (manager p))] |}.

(** ** Notions for the chat loop and the files *)

(** [effect R m]: [m] returns or raises in a process related by [R] to the
    one it started in, or leaves through the signal handler from such a
    process. *)
Definition effect (R : Process → Process → Prop) {A} (m : M A) : Prop :=
  ∀ p, ∃ q, R p q ∧
    ((∃ a, m p = (Return a, q)) ∨
     (∃ e, m p = (Raise e, q)) ∨
     m p = (SystemExit (Status 0), saved_state q)).

(** [quiet p q]: from [p] to [q] only standard output may have changed. *)
Record quiet (p q : Process) : Prop := {
  quiet_manager : manager q = manager p;
  quiet_world : world q = world p;
  quiet_stderr : stderr q = stderr p;
  quiet_journal : journal q = journal p;
}.

(** A transcript in which user and assistant alternate, the user first; it
    may end on a user message without a reply. *)
Fixpoint dialogue (ms : list Message) : bool :=
  match ms with
  | [] => true
  | u :: rest =>
      String.eqb (role u) "user" &&
      match rest with
      | [] => true
      | a :: rest' => String.eqb (role a) "assistant" && dialogue rest'
      end
  end.

(** [talks p q ms]: from [p] to [q] the transcript grew by [ms], and apart
    from standard output nothing else changed: not the configuration, not the
    saved flag, no file, no effect on the file system. *)
Record talks (p q : Process) (ms : list Message) : Prop := {
  talks_messages : messages (manager q) = (messages (manager p) ++ ms)%list;
  talks_config : config (manager q) = config (manager p);
  talks_saved : _saved (manager q) = _saved (manager p);
  talks_world : world q = world p;
  talks_stderr : stderr q = stderr p;
  talks_journal : journal q = journal p;
}.

(** Lines 140 to 185: the status, or the chat. *)
Definition after_archive (args : Namespace.t) (svc : Service) (script : list prompted)
    : M unit :=
  if truthy (Namespace.status args) then show_status
  else
    api_key <- config_getitem "api_key" ;;
    base_url <- config_getitem "base_url" ;;
    new_client api_key base_url ;;;
    chat_loop svc script.

(** What [show_status] prints for the items of the configuration. *)
Definition status_lines (d : dict) : list out_item :=
  flat_map (fun kv => [Str kv.1; Text ": "; Str kv.2; Text nl]) d.

(** [files_kept args p q]: from [p] to [q] the settings file is the same
    unless [-k] was given, and the archive files are the same unless [-n]
    was given. *)
Definition files_kept (args : Namespace.t) (p q : Process) : Prop :=
  (truthy (Namespace.key args) = false → settings (world q) = settings (world p)) ∧
  (truthy (Namespace.new args) = false → cwd (world q) = cwd (world p)).



(** The statement is a single-target assignment to the name [DATABASE]. *)
Definition assigns_DATABASE (st : stmt) : bool :=
  match st with
  | Assign [Name id] _ => String.eqb id "DATABASE"
  | _ => false
  end.

(** ** Notions for the requests *)

(** A request as the chat loop builds it under the configuration [cfg]: the
    model and the temperature are the configured ones, the stream flag is the
    mode of the configuration, and the messages end with what the user just
    typed, which is no quit word. *)
Record sendable (cfg : dict) (r : Request) : Prop := {
  sendable_model : dict_lookup (VStr "model") cfg = Some (model r);
  sendable_temperature : dict_lookup (VStr "temperature") cfg = Some (temperature r);
  sendable_stream : truthy <$> dict_lookup (VStr "stream") cfg = Some (stream r);
  sendable_messages :
    ∃ ms message, is_quit message = false ∧
                  request_messages r = (ms ++ [user message])%list;
}.

(** Two services that answer alike every request the chat loop may send
    under [cfg], each with the call that goes with the stream flag. *)
Definition alike (cfg : dict) (svc svc' : Service) : Prop :=
  ∀ r, sendable cfg r →
    if stream r then create_stream svc r = create_stream svc' r
    else create svc r = create svc' r.

(** A service that answers the requests for one model only. *)
Definition streaming_for (name : string) (items : list stream_item) : Service :=
  {| create_stream := fun r =>
       if eq_str (model r) name then Replied items else Failed APIError;
     create := fun _ => Failed APIError |}.

(** The command line [argv] with the value of [-t] replaced. *)
Definition with_t (t : option float) (argv : Argv) : Argv :=
  {| opt_n := opt_n argv; opt_k := opt_k argv; opt_b := opt_b argv; opt_r := opt_r argv;
     opt_m := opt_m argv; opt_s := opt_s argv; opt_t := t; opt_d := opt_d argv |}.

(** * Properties *)

(** ** Dictionaries with string keys *)

Lemma key_eqb_str (k : value) (s : string) : key_eqb k (VStr s) = true ↔ k = VStr s.
Proof.
  destruct k; simpl; try (split; [discriminate | discriminate]).
  rewrite String.eqb_eq. split; [intros -> | intros [= ->]]; reflexivity.
Qed.

Lemma key_eqb_str_refl (s : string) : key_eqb (VStr s) (VStr s) = true.
Proof. apply key_eqb_str. reflexivity. Qed.

Lemma key_eqb_str_ne (s t : string) : s ≠ t → key_eqb (VStr s) (VStr t) = false.
Proof.
  intros Hne. destruct (key_eqb (VStr s) (VStr t)) eqn:E; [| reflexivity].
  apply key_eqb_str in E. congruence.
Qed.

Lemma dict_lookup_set_eq (s : string) (v : value) (d : dict) :
  dict_lookup (VStr s) (dict_set (VStr s) v d) = Some v.
Proof.
  induction d as [| [k' v'] d IH]; cbn [dict_set dict_lookup].
  - rewrite key_eqb_str_refl. reflexivity.
  - destruct (key_eqb k' (VStr s)) eqn:E; cbn [dict_lookup]; rewrite E;
      [reflexivity | exact IH].
Qed.

Lemma dict_lookup_set_ne (s t : string) (v : value) (d : dict) :
  s ≠ t → dict_lookup (VStr t) (dict_set (VStr s) v d) = dict_lookup (VStr t) d.
Proof.
  intros Hne. induction d as [| [k' v'] d IH]; cbn [dict_set dict_lookup].
  - rewrite key_eqb_str_ne by exact Hne. reflexivity.
  - destruct (key_eqb k' (VStr s)) eqn:E; cbn [dict_lookup].
    + apply key_eqb_str in E. subst k'.
      rewrite key_eqb_str_ne by exact Hne. reflexivity.
    + destruct (key_eqb k' (VStr t)); [reflexivity | exact IH].
Qed.

Lemma dict_get_set_eq (s : string) (v default : value) (d : dict) :
  dict_get s default (dict_set (VStr s) v d) = v.
Proof. unfold dict_get. rewrite dict_lookup_set_eq. reflexivity. Qed.

Lemma dict_get_set_ne (s t : string) (v default : value) (d : dict) :
  s ≠ t → dict_get t default (dict_set (VStr s) v d) = dict_get t default d.
Proof. intros Hne. unfold dict_get. rewrite dict_lookup_set_ne by exact Hne. reflexivity. Qed.

(** ** The save-once flag *)

Lemma save_data_eq (p : Process) : save_data p = (Return tt, saved_state p).
Proof.
  unfold save_data, saved_state, should_save, bind, get_manager, get_world, when.
  destruct (negb (_saved (manager p)) &&
            truthy (dict_get "memory" (VBool true) (config (manager p)))); reflexivity.
Qed.

Lemma saved_state_flag (p : Process) : _saved (manager (saved_state p)) = true.
Proof. unfold saved_state. destruct (should_save p); reflexivity. Qed.

Lemma should_save_saved (p : Process) : _saved (manager p) = true → should_save p = false.
Proof. unfold should_save. intros ->. reflexivity. Qed.

Lemma saved_state_off (p : Process) :
  should_save p = false →
  journal (saved_state p) = journal p ∧ world (saved_state p) = world p.
Proof. intros H. unfold saved_state. rewrite H. split; reflexivity. Qed.

Lemma saved_state_of_saved (p : Process) : _saved (manager p) = true → saved_state p = p.
Proof.
  intros H. unfold saved_state. rewrite (should_save_saved p H).
  destruct p as [[ms cfg sv] w out err j]. simpl in *. subst sv. reflexivity.
Qed.

Lemma saved_state_idem (p : Process) : saved_state (saved_state p) = saved_state p.
Proof. apply saved_state_of_saved, saved_state_flag. Qed.

Lemma latest_writes_app (j1 j2 : list fs_event) :
  latest_writes (j1 ++ j2) = (latest_writes j1 ++ latest_writes j2)%list.
Proof. unfold latest_writes. apply omap_app. Qed.

Lemma saved_state_writes (p : Process) :
  latest_writes (journal (saved_state p)) =
  (latest_writes (journal p) ++ (if should_save p then [messages (manager p)] else []))%list.
Proof.
  unfold saved_state. destruct (should_save p); simpl.
  - rewrite latest_writes_app. reflexivity.
  - rewrite app_nil_r. reflexivity.
Qed.



(** ** A program logic for the session *)

Lemma keeps_refl (p : Process) : keeps p p.
Proof. split; reflexivity. Qed.

Lemma keeps_trans (p q r : Process) : keeps p q → keeps q r → keeps p r.
Proof. intros [] []. split; congruence. Qed.

Create HintDb session discriminated.

Lemma session_ret {A} (a : A) : session (ret a).
Proof. intros p. exists p. split; [apply keeps_refl | left; eexists; reflexivity]. Qed.

Lemma session_raise {A} (e : exn) : session (@raise A e).
Proof. intros p. exists p. split; [apply keeps_refl | right; left; eexists; reflexivity]. Qed.

Lemma session_handle_exit {A} : session (@handle_exit A).
Proof.
  intros p. exists p. split; [apply keeps_refl |]. right; right.
  unfold handle_exit, bind. rewrite save_data_eq. reflexivity.
Qed.

Lemma session_bind {A B} (m : M A) (k : A → M B) :
  session m → (∀ a, session (k a)) → session (bind m k).
Proof.
  intros Hm Hk p. destruct (Hm p) as (q & Hpq & [[a Ha] | [[e He] | Hx]]).
  - destruct (Hk a q) as (r & Hqr & Hr). exists r.
    split; [exact (keeps_trans _ _ _ Hpq Hqr) |].
    unfold bind. rewrite Ha. exact Hr.
  - exists q. split; [exact Hpq |]. right; left. exists e.
    unfold bind. rewrite He. reflexivity.
  - exists q. split; [exact Hpq |]. right; right.
    unfold bind. rewrite Hx. reflexivity.
Qed.

Lemma session_when (b : bool) (m : M unit) : session m → session (when b m).
Proof. intros Hm. destruct b; [exact Hm | apply session_ret]. Qed.

Lemma session_get_manager : session get_manager.
Proof. intros p. exists p. split; [apply keeps_refl | left; eexists; reflexivity]. Qed.

Lemma session_get_world : session get_world.
Proof. intros p. exists p. split; [apply keeps_refl | left; eexists; reflexivity]. Qed.

Lemma session_write (item : out_item) : session (write item).
Proof.
  intros p. eexists. split; [| left; exists tt; reflexivity].
  split; reflexivity.
Qed.

Lemma session_print (s : string) : session (print s).
Proof. apply session_write. Qed.

Lemma session_print_noend (s : string) : session (print_noend s).
Proof. apply session_write. Qed.

Lemma session_append (msg : Message) : session (append msg).
Proof.
  intros p. eexists. split; [| left; exists tt; reflexivity].
  split; reflexivity.
Qed.

Lemma session_config_getitem (k : string) : session (config_getitem k).
Proof.
  intros p. exists p. split; [apply keeps_refl |].
  unfold config_getitem, bind, get_manager.
  destruct (dict_lookup (VStr k) (config (manager p))).
  - left. eexists. reflexivity.
  - right; left. eexists. reflexivity.
Qed.

Lemma session_await {A} (r : reply A) : session (await r).
Proof.
  destruct r; [apply session_ret | apply session_raise | apply session_handle_exit].
Qed.

#[export] Hint Resolve session_ret session_raise session_handle_exit session_when
  session_get_manager session_get_world session_write session_print
  session_print_noend session_append session_config_getitem session_await : session.

(** Chains of binds are split rule by rule. *)
Ltac session_step :=
  lazymatch goal with
  | |- session (bind _ _) => apply session_bind; [| intros ?]
  | |- session (when _ _) => apply session_when
  | |- session (if ?b then _ else _) => destruct b
  | |- session (match ?x with _ => _ end) => destruct x
  | |- _ => solve [eauto with session]
  end.
Ltac session_auto := repeat session_step.

Lemma session_consume (items : list stream_item) (reasoning_content content : string) :
  session (consume items reasoning_content content).
Proof.
  revert reasoning_content content.
  induction items as [| item items IH]; intros rc c; cbn [consume].
  - apply session_ret.
  - destruct item as [ch | sg | e]; [| apply session_handle_exit | apply session_raise].
    destruct (fragment (delta_reasoning_content ch)) as [r |].
    + session_auto.
    + destruct (fragment (delta_content ch)) as [a |]; [| apply IH].
      session_auto.
Qed.

Lemma session_streamed_turn (svc : Service) : session (streamed_turn svc).
Proof. unfold streamed_turn. session_auto; apply session_consume. Qed.

Lemma session_plain_turn (svc : Service) : session (plain_turn svc).
Proof. unfold plain_turn. session_auto. Qed.

Lemma session_chat_loop (svc : Service) (script : list prompted) :
  session (chat_loop svc script).
Proof.
  induction script as [| [message | sg | e] script IH]; cbn [chat_loop].
  - apply session_raise.
  - destruct (is_quit message); [apply session_ret |].
    apply session_bind; [apply session_append | intros _].
    apply session_bind; [apply session_config_getitem | intros streaming].
    apply session_bind; [| intros _; exact IH].
    destruct (truthy streaming);
      [apply session_streamed_turn | apply session_plain_turn].
  - destruct sg; [apply session_raise | apply session_handle_exit].
  - apply session_raise.
Qed.

Lemma session_new_client (api_key base_url : value) :
  session (new_client api_key base_url).
Proof. unfold new_client. session_auto. Qed.

Lemma session_set_manager (f : ConfigManager → ConfigManager) :
  (∀ m, config (f m) = config m) → (∀ m, _saved (f m) = _saved m) →
  session (set_manager f).
Proof.
  intros Hc Hs p. eexists. split; [| left; exists tt; reflexivity].
  split; simpl; auto.
Qed.

Lemma session_set_world (g : World → World) :
  (∀ w, latest (g w) = latest w) → (∀ w, script_dir (g w) = script_dir w) →
  session (set_world g).
Proof.
  intros Hl Hd p. eexists. split; [| left; exists tt; reflexivity].
  split; simpl; auto.
Qed.

Lemma session_record (ev : fs_event) : elsewhere ev = true → session (record ev).
Proof.
  intros Hev p. eexists. split; [| left; exists tt; reflexivity].
  split; simpl; try reflexivity.
  - rewrite latest_writes_app. destruct ev; try discriminate; apply app_nil_r.
  - unfold reads_latest. rewrite existsb_app.
    destruct ev; try discriminate; apply orb_false_r.
Qed.

Lemma session_open_for_writing (name : string) : session (open_for_writing name).
Proof. unfold open_for_writing. session_auto. Qed.

Lemma session_save_messages : session save_messages.
Proof.
  unfold save_messages.
  apply session_bind; [apply session_get_world | intros w].
  apply session_bind; [apply session_get_manager | intros m].
  apply session_bind; [apply session_open_for_writing | intros _].
  apply session_bind; [apply session_set_world; reflexivity | intros _].
  apply session_bind; [apply session_record; reflexivity | intros _].
  apply session_set_manager; reflexivity.
Qed.

Lemma session_show_status : session show_status.
Proof.
  unfold show_status.
  apply session_bind; [apply session_get_manager | intros m].
  apply session_bind; [apply session_get_world | intros w].
  apply session_bind; [| intros _; apply session_print].
  induction (config m) as [| [key value] items IH]; [apply session_ret |].
  session_auto.
Qed.

Lemma session_write_new_config (args : Namespace.t) : session (write_new_config args).
Proof.
  unfold write_new_config.
  apply session_bind; [apply session_get_world | intros w].
  apply session_bind; [apply session_set_world; reflexivity | intros _].
  apply session_bind; [apply session_record; reflexivity | intros _].
  apply session_print.
Qed.

Lemma session_dispatch (args : Namespace.t) (svc : Service) (script : list prompted) :
  session (dispatch args svc script).
Proof.
  unfold dispatch.
  destruct (truthy (Namespace.key args)); [apply session_write_new_config |].
  apply session_bind; [apply session_when, session_save_messages | intros _].
  destruct (truthy (Namespace.status args)); [apply session_show_status |].
  apply session_bind; [apply session_config_getitem | intros api_key].
  apply session_bind; [apply session_config_getitem | intros base_url].
  apply session_bind; [apply session_new_client | intros _].
  apply session_chat_loop.
Qed.

(** ** main, block by block *)

Lemma override_config_eq (args : Namespace.t) (p : Process) :
  override_config args p =
  (Return tt, with_config (apply_flags args (config (manager p))) p).
Proof.
  destruct p as [[ms cfg sv] w out err j].
  unfold override_config, apply_flags, with_config, bind, when, config_setitem,
    set_manager, set_config, ret. simpl.
  destruct (truthy (Namespace.beta args)), (truthy (Namespace.reasoner args)),
    (is_not_None (Namespace.memory args)), (truthy (Namespace.no_stream args));
    reflexivity.
Qed.

(** [action='store_true'] never leaves [None] behind: the test of line 116
    always succeeds and the memory key is always overwritten. *)
Lemma parse_args_memory (argv : Argv) :
  Namespace.memory (parse_args argv) = VBool (opt_m argv).
Proof. reflexivity. Qed.

Lemma apply_flags_memory (argv : Argv) (d : dict) :
  dict_get "memory" (VBool true) (apply_flags (parse_args argv) d) = VBool (opt_m argv).
Proof.
  unfold apply_flags. rewrite parse_args_memory. cbn [is_not_None].
  destruct (truthy (Namespace.no_stream (parse_args argv))).
  - rewrite dict_get_set_ne by discriminate. apply dict_get_set_eq.
  - apply dict_get_set_eq.
Qed.

Lemma load_latest_eq (p : Process) :
  load_latest p =
  match latest (world p) with
  | None => (Raise FileNotFoundError, p)
  | Some NotJson => (Raise JSONDecodeError, opened p)
  | Some (Json ms) => (Return tt, loaded ms p)
  end.
Proof.
  unfold load_latest, bind, get_world.
  destruct (latest (world p)) as [[| ms] |]; reflexivity.
Qed.

Lemma load_transcript_eq (p : Process) :
  load_transcript p =
  if truthy (dict_get "memory" (VBool true) (config (manager p)))
  then match latest (world p) with
       | None => (Raise FileNotFoundError, p)
       | Some NotJson => (Raise JSONDecodeError, opened p)
       | Some (Json ms) => (Return tt, loaded ms p)
       end
  else (Return tt, p).
Proof.
  unfold load_transcript, load_latest, bind, get_manager, get_world, when.
  destruct (truthy (dict_get "memory" (VBool true) (config (manager p))));
    [| reflexivity].
  destruct (latest (world p)) as [[| ms] |]; reflexivity.
Qed.

Lemma load_transcript_then {A} (k : M A) (p : Process) :
  bind load_transcript (fun _ => k) p =
  if truthy (dict_get "memory" (VBool true) (config (manager p)))
  then match latest (world p) with
       | None => (Raise FileNotFoundError, p)
       | Some NotJson => (Raise JSONDecodeError, opened p)
       | Some (Json ms) => k (loaded ms p)
       end
  else k p.
Proof.
  unfold bind. rewrite load_transcript_eq.
  destruct (truthy (dict_get "memory" (VBool true) (config (manager p))));
    [| reflexivity].
  destruct (latest (world p)) as [[| ms] |]; reflexivity.
Qed.

Lemma main_eq (args : Namespace.t) (svc : Service) (script : list prompted) (p : Process) :
  main args svc script p =
  bind load_transcript (fun _ => dispatch args svc script)
    (with_config (apply_flags args (config (manager p))) p).
Proof. unfold main. unfold bind at 1. rewrite override_config_eq. reflexivity. Qed.

Lemma unsaved_keeps (p q : Process) : unsaved p → keeps p q → unsaved q.
Proof. intros (Hs & Hw & He) []. repeat split; congruence. Qed.

(** However [main] ends, it has not saved, unless it ends in the signal
    handler, which saves and exits with status 0. *)
Lemma main_unsaved (args : Namespace.t) (svc : Service) (script : list prompted)
    (p : Process) :
  unsaved p →
  ∃ q, unsaved q ∧
    ((∃ a, main args svc script p = (Return a, q)) ∨
     (∃ e, main args svc script p = (Raise e, q)) ∨
     main args svc script p = (SystemExit (Status 0), saved_state q)).
Proof.
  intros Hp. rewrite main_eq.
  set (p1 := with_config _ p).
  assert (H1 : unsaved p1) by exact Hp.
  rewrite load_transcript_then.
  assert (Hd : ∀ p2, unsaved p2 →
    ∃ q, unsaved q ∧
      ((∃ a, dispatch args svc script p2 = (Return a, q)) ∨
       (∃ e, dispatch args svc script p2 = (Raise e, q)) ∨
       dispatch args svc script p2 = (SystemExit (Status 0), saved_state q))).
  { intros p2 H2. destruct (session_dispatch args svc script p2) as (q & Hk & Hq).
    exists q. split; [exact (unsaved_keeps _ _ H2 Hk) | exact Hq]. }
  assert (Ho : unsaved (opened p1)).
  { destruct H1 as (Hs & Hw & He). repeat split; [exact Hs | | exact He].
    change (latest_writes (journal p1 ++ [ReadLatest]) = []).
    rewrite latest_writes_app, Hw. reflexivity. }
  destruct (truthy (dict_get "memory" (VBool true) (config (manager p1))));
    [| apply Hd, H1].
  destruct (latest (world p1)) as [[| ms] |].
  - exists (opened p1). split; [exact Ho |]. right; left. eexists. reflexivity.
  - apply Hd. exact Ho.
  - exists p1. split; [exact H1 |]. right; left. eexists. reflexivity.
Qed.

(** ** The end of the process *)

Lemma at_exit_eq (p : Process) : at_exit p = saved_state p.
Proof. unfold at_exit. rewrite save_data_eq. reflexivity. Qed.

Lemma terminate_return (a : unit) (p : Process) :
  terminate (Return a, p) = finish 0 (saved_state p).
Proof. unfold terminate. rewrite at_exit_eq. reflexivity. Qed.

Lemma terminate_signal (p : Process) :
  terminate (SystemExit (Status 0), saved_state p) = finish 0 (saved_state p).
Proof.
  unfold terminate, exit_process, report_exit, ret. cbn [snd status_of].
  rewrite at_exit_eq, saved_state_idem. reflexivity.
Qed.

Lemma terminate_raise (e : exn) (p : Process) :
  terminate (Raise e, p) = finish 1 (traced e (saved_state p)).
Proof.
  unfold terminate, exception_hook, bind. rewrite save_data_eq.
  unfold write_err, sys_exit, exit_process, report_exit, ret. cbn [snd status_of].
  rewrite at_exit_eq. f_equal.
  apply saved_state_of_saved. apply saved_state_flag.
Qed.

(** ** Saving at most once *)




(** ** The flag is set by the first call, whatever it did *)

Lemma session_saved {A} (m : M A) (p : Process) :
  session m → _saved (manager p) = true → keeps p (m p).2.
Proof.
  intros Hm Hs. destruct (Hm p) as (q & Hk & [[a Ha] | [[e He] | Hx]]).
  - rewrite Ha. exact Hk.
  - rewrite He. exact Hk.
  - rewrite Hx. cbn [snd]. rewrite saved_state_of_saved; [exact Hk |].
    rewrite (keeps_saved _ _ Hk). exact Hs.
Qed.

(** Once the flag is set, no operation of the manager writes the
    latest-transcript file or clears the flag. *)
Lemma perform_saved (op : operation) (p : Process) :
  _saved (manager p) = true →
  _saved (manager (perform op p).2) = true ∧
  latest_writes (journal (perform op p).2) = latest_writes (journal p) ∧
  latest (world (perform op p).2) = latest (world p).
Proof.
  intros Hs.
  assert (Hk : ∀ m : M unit, session m →
    _saved (manager (m p).2) = true ∧
    latest_writes (journal (m p).2) = latest_writes (journal p) ∧
    latest (world (m p).2) = latest (world p)).
  { intros m Hm. destruct (session_saved m p Hm Hs) as [_ H1 H2 _ _ H3 _].
    rewrite H1, H2, H3. auto. }
  destruct op as [k v | msg | | | |]; cbn [perform].
  - repeat split; exact Hs.
  - apply Hk, session_append.
  - rewrite load_latest_eq.
    destruct (latest (world p)) as [[| ms] |] eqn:E; cbn [snd];
      (split; [exact Hs | split; [| exact E]]);
      try reflexivity;
      unfold opened, loaded; cbn [journal];
      rewrite latest_writes_app; apply app_nil_r.
  - apply Hk, session_save_messages.
  - apply Hk, session_show_status.
  - rewrite save_data_eq. cbn [snd]. rewrite (saved_state_of_saved p Hs). auto.
Qed.

Lemma perform_all_saved (ops : list operation) (p : Process) :
  _saved (manager p) = true →
  _saved (manager (perform_all ops p)) = true ∧
  latest_writes (journal (perform_all ops p)) = latest_writes (journal p) ∧
  latest (world (perform_all ops p)) = latest (world p).
Proof.
  revert p. induction ops as [| op ops IH]; intros p Hs; cbn [perform_all].
  - auto.
  - destruct (perform_saved op p Hs) as (H1 & H2 & H3).
    destruct (IH _ H1) as (H4 & H5 & H6).
    rewrite H5, H6, H2, H3. auto.
Qed.

(** C9. The first [save_data] sets the flag whatever the memory flag says.
    When it runs with memory off in a process that has not saved, it writes
    nothing, and after it no sequence of operations of the manager (setting
    the memory flag to true and calling [save_data] again among them) writes
    the latest-transcript file. *)
Theorem first_save_sets_flag_unconditionally (p : Process) (ops : list operation) :
  _saved (manager p) = false →
  truthy (dict_get "memory" (VBool true) (config (manager p))) = false →
  let p1 := (save_data p).2 in
  let q := perform_all ops p1 in
  (∀ p', _saved (manager (save_data p').2) = true) ∧
  _saved (manager p1) = true ∧
  journal p1 = journal p ∧
  world p1 = world p ∧
  _saved (manager q) = true ∧
  latest_writes (journal q) = latest_writes (journal p) ∧
  latest (world q) = latest (world p).
Proof.
  intros Hs Hm p1 q. subst q p1.
  split.
  { intros p'. rewrite save_data_eq. apply saved_state_flag. }
  rewrite save_data_eq. cbn [snd].
  assert (Hno : should_save p = false).
  { unfold should_save. rewrite Hm. apply andb_false_r. }
  destruct (perform_all_saved ops (saved_state p) (saved_state_flag p))
    as (H1 & H2 & H3).
  destruct (saved_state_off p Hno) as [Hj Hw].
  rewrite H2, H3, Hj, Hw.
  repeat split; try reflexivity; [apply saved_state_flag | exact H1].
Qed.

Lemma first_save_sets_flag_unconditionally_witness :
  let p := sample_process false "deepseek-chat" [user "hello"] in
  let ops := [SetConfig "memory" (VBool true); Append (assistant "Hi"); SaveData] in
  _saved (manager p) = false ∧
  truthy (dict_get "memory" (VBool true) (config (manager p))) = false ∧
  _saved (manager (save_data p).2) = true ∧
  truthy (dict_get "memory" (VBool true)
            (config (manager (perform_all ops (save_data p).2)))) = true ∧
  latest_writes (journal (perform_all ops (save_data p).2)) = [] ∧
  latest (world (perform_all ops (save_data p).2)) = None.
Proof.
  intros p ops.
  destruct (first_save_sets_flag_unconditionally p ops eq_refl eq_refl)
    as (_ & H1 & _ & _ & _ & H2 & H3).
  split; [reflexivity | split; [reflexivity |]].
  split; [exact H1 | split; [reflexivity | split; [exact H2 | exact H3]]].
Defined.

(** ** The exit paths *)

Lemma ConfigManager_init_fresh (w : World) (mgr : ConfigManager) :
  ConfigManager_init w = Return mgr →
  messages mgr = [] ∧ _saved mgr = false ∧ _validate_config w = Return (config mgr).
Proof.
  unfold ConfigManager_init. destruct (_validate_config w); [| discriminate ..].
  intros [= <-]. auto.
Qed.

Lemma run_eq (w : World) (argv : Argv) (svc : Service) (script : list prompted)
    (mgr : ConfigManager) :
  ConfigManager_init w = Return mgr →
  run w argv svc script = terminate (main (parse_args argv) svc script (start mgr w)).
Proof. intros H. unfold run. rewrite H. reflexivity. Qed.

Lemma length_saved_state_writes (p : Process) :
  (length (latest_writes (journal (saved_state p)))
   ≤ S (length (latest_writes (journal p))))%nat.
Proof.
  rewrite saved_state_writes, length_app.
  destruct (should_save p); simpl; lia.
Qed.

(** A run in which signals arrive only while the program waits writes the
    latest-transcript file at most once. *)
Lemma run_writes_at_most_once (w : World) (argv : Argv) (svc : Service)
    (script : list prompted) :
  (length (latest_writes (final_journal (run w argv svc script))) ≤ 1)%nat.
Proof.
  destruct (ConfigManager_init w) as [mgr | arg | e] eqn:Hinit.
  - rewrite (run_eq _ _ _ _ _ Hinit).
    destruct (ConfigManager_init_fresh _ _ Hinit) as (_ & Hs & _).
    destruct (main_unsaved (parse_args argv) svc script (start mgr w))
      as (q & (Hqs & Hqw & _) & [[a Ha] | [[e He] | Hx]]).
    { repeat split; [exact Hs | reflexivity ..]. }
    + rewrite Ha, terminate_return. cbn [finish final_journal].
      pose proof (length_saved_state_writes q) as H. rewrite Hqw in H. exact H.
    + rewrite He, terminate_raise. cbn [finish final_journal traced journal].
      pose proof (length_saved_state_writes q) as H. rewrite Hqw in H. exact H.
    + rewrite Hx, terminate_signal. cbn [finish final_journal].
      pose proof (length_saved_state_writes q) as H. rewrite Hqw in H. exact H.
  - unfold run. rewrite Hinit. simpl. lia.
  - unfold run. rewrite Hinit. simpl. lia.
Qed.

Lemma handle_exit_eq {A} (p : Process) :
  @handle_exit A p = (SystemExit (Status 0), saved_state p).
Proof. unfold handle_exit, bind. rewrite save_data_eq. reflexivity. Qed.

Lemma exception_hook_eq (e : exn) (p : Process) :
  exception_hook e p = (SystemExit (Status 1), traced e (saved_state p)).
Proof. unfold exception_hook, bind. rewrite save_data_eq. reflexivity. Qed.

(** A signal that arrives during the save, after the file is written: the
    handler saves again, since the flag is still down. *)
Lemma save_data_interrupted_writes_twice {A} (p : Process) :
  should_save p = true →
  latest_writes (journal (@save_data_interrupted A p).2)
  = (latest_writes (journal p) ++ [messages (manager p); messages (manager p)])%list.
Proof.
  intros H. unfold should_save in H.
  unfold save_data_interrupted, bind, get_manager, get_world, when. rewrite H.
  cbn [set_world record print write fst snd]. rewrite handle_exit_eq. cbn [snd].
  rewrite saved_state_writes. unfold should_save.
  cbn [manager _saved config messages journal]. rewrite H.
  rewrite latest_writes_app, <- app_assoc. reflexivity.
Qed.

(** C7. The handler of the signals saves and then exits with status 0; the
    exception hook saves, then reports the error, then exits with status 1;
    after either of them the finalizer that runs at exit changes nothing.
    A termination signal at the prompt runs the handler. An interrupt at the
    prompt does not: [prompt] raises [KeyboardInterrupt], which goes to the
    exception hook, and the process ends with a traceback and status 1,
    not 0. And a signal that arrives during a save, between the write and
    line 82, makes the handler save again: the file is written twice. *)
Theorem interrupt_at_the_prompt_ends_with_status_1 :
  (∀ (p : Process), @handle_exit unit p = (SystemExit (Status 0), (save_data p).2)) ∧
  (∀ (e : exn) (p : Process),
     exception_hook e p
     = (SystemExit (Status 1), (write_err (Traceback e) (save_data p).2).2)) ∧
  (∀ (p : Process), terminate (@handle_exit unit p) = finish 0 (save_data p).2) ∧
  (∀ (e : exn) (p : Process),
     terminate (Raise e, p) = finish 1 (write_err (Traceback e) (save_data p).2).2) ∧
  (∀ (svc : Service) (rest : list prompted) (p : Process),
     chat_loop svc (PromptSignal SIGTERM :: rest) p = handle_exit p) ∧
  (∀ (svc : Service) (rest : list prompted) (p : Process),
     chat_loop svc (PromptSignal SIGINT :: rest) p = (Raise KeyboardInterrupt, p) ∧
     terminate (chat_loop svc (PromptSignal SIGINT :: rest) p)
     = finish 1 (write_err (Traceback KeyboardInterrupt) (save_data p).2).2) ∧
  (let w := sample_world true "deepseek-chat"
              (Some (Json [user "earlier"; assistant "reply"])) in
   let r := run w flag_m (streaming [answer "Hi"]) [PromptSignal SIGINT] in
   exit_status r = 1 ∧
   final_stderr r = [Traceback KeyboardInterrupt] ∧
   final_journal r = [ReadLatest; WriteLatest [user "earlier"; assistant "reply"]]) ∧
  (let p := sample_process true "deepseek-chat" [user "hello"] in
   let q := (@save_data_interrupted unit p).2 in
   latest_writes (journal p) = [] ∧
   latest_writes (journal q) = [[user "hello"]; [user "hello"]] ∧
   terminate (@save_data_interrupted unit p) = finish 0 q).
Proof.
  assert (Hraise : ∀ e p,
    terminate (Raise e, p) = finish 1 (write_err (Traceback e) (save_data p).2).2).
  { intros e p. rewrite terminate_raise, save_data_eq. reflexivity. }
  split; [intros p; rewrite handle_exit_eq, save_data_eq; reflexivity |].
  split; [intros e p; rewrite exception_hook_eq, save_data_eq; reflexivity |].
  split; [intros p; rewrite handle_exit_eq, save_data_eq; apply terminate_signal |].
  split; [exact Hraise |].
  split; [reflexivity |].
  split; [intros svc rest p; split; [reflexivity | apply Hraise] |].
  split; [vm_compute; auto |].
  vm_compute. auto.
Qed.

(** ** Memory on, latest-transcript file missing *)

Lemma start_after_flags_should_save (argv : Argv) (mgr : ConfigManager) (w : World) :
  _saved mgr = false →
  should_save (with_config (apply_flags (parse_args argv) (config mgr)) (start mgr w))
  = opt_m argv.
Proof.
  intros Hs. unfold should_save. cbn [with_config manager set_config _saved config start].
  rewrite Hs, apply_flags_memory. reflexivity.
Qed.

Lemma start_after_flags_memory (argv : Argv) (mgr : ConfigManager) (w : World) :
  truthy (dict_get "memory" (VBool true)
    (config (manager (with_config (apply_flags (parse_args argv) (config mgr))
                                  (start mgr w)))))
  = opt_m argv.
Proof.
  cbn [with_config manager set_config config start].
  rewrite apply_flags_memory. reflexivity.
Qed.

(** C10. With a valid configuration, the memory key true once the flags
    are applied, and no latest-transcript file, the load raises
    [FileNotFoundError] before anything is written. The error reaches the
    exception hook, and it is the hook that writes the empty transcript to
    the latest-transcript file, which creates it, reports the error and
    exits with status 1; the finalizer that runs afterwards adds nothing.
    This holds whatever the other flags, the service and the user do. *)
Theorem missing_latest_file_is_created_by_the_hook
    (w : World) (argv : Argv) (svc : Service) (script : list prompted)
    (mgr : ConfigManager) :
  ConfigManager_init w = Return mgr →
  truthy (dict_get "memory" (VBool true)
            (apply_flags (parse_args argv) (config mgr))) = true →
  latest w = None →
  let r := run w argv svc script in
  let p1 := with_config (apply_flags (parse_args argv) (config mgr)) (start mgr w) in
  let p2 := (exception_hook FileNotFoundError p1).2 in
  main (parse_args argv) svc script (start mgr w)
  = (Raise FileNotFoundError,
     with_config (apply_flags (parse_args argv) (config mgr)) (start mgr w)) ∧
  exit_status r = 1 ∧
  final_stderr r = [Traceback FileNotFoundError] ∧
  final_journal r = [WriteLatest []] ∧
  latest (final_world r) = Some (Json []) ∧
  journal p1 = [] ∧
  latest (world p1) = None ∧
  exception_hook FileNotFoundError p1 = (SystemExit (Status 1), p2) ∧
  journal p2 = [WriteLatest []] ∧
  latest (world p2) = Some (Json []) ∧
  stdout p2 = [Text (("数据已保存到 " +:+ messages_path w) +:+ nl)] ∧
  stderr p2 = [Traceback FileNotFoundError] ∧
  _saved (manager p2) = true ∧
  r = finish 1 p2.
Proof.
  intros Hinit Hm Hl r p1 p2. subst r.
  rewrite apply_flags_memory in Hm. cbn [truthy] in Hm.
  destruct (ConfigManager_init_fresh _ _ Hinit) as (Hms & Hs & _).
  assert (Hmain : main (parse_args argv) svc script (start mgr w)
    = (Raise FileNotFoundError, p1)).
  { rewrite main_eq, load_transcript_then.
    cbn [with_config manager set_config config start world].
    rewrite apply_flags_memory, Hm, Hl. reflexivity. }
  assert (Hhook : exception_hook FileNotFoundError p1
                  = (SystemExit (Status 1), traced FileNotFoundError (saved_state p1))).
  { apply exception_hook_eq. }
  assert (Hp2 : p2 = traced FileNotFoundError (saved_state p1)).
  { unfold p2. rewrite Hhook. reflexivity. }
  assert (Hon : should_save p1 = true).
  { unfold p1. rewrite (start_after_flags_should_save argv mgr w Hs). exact Hm. }
  split; [exact Hmain |].
  rewrite (run_eq _ _ _ _ _ Hinit), Hmain, terminate_raise, Hp2.
  unfold saved_state. rewrite Hon.
  cbn. rewrite Hms, Hl.
  repeat (split; [reflexivity |]).
  split; [| repeat (split; [reflexivity |]); reflexivity].
  rewrite Hhook. unfold saved_state. rewrite Hon. cbn. rewrite Hms. reflexivity.
Qed.

Lemma missing_latest_file_is_created_by_the_hook_witness :
  let w := sample_world true "deepseek-chat" None in
  let r := run w flag_m (streaming [answer "Hi"]) [Line "hello"; Line "quit"] in
  let p1 := with_config (apply_flags (parse_args flag_m) (sample_config true "deepseek-chat"))
              (start {| messages := []; config := sample_config true "deepseek-chat";
                        _saved := false |} w) in
  truthy (dict_get "memory" (VBool true)
            (apply_flags (parse_args flag_m) (sample_config true "deepseek-chat"))) = true ∧
  latest w = None ∧
  exit_status r = 1 ∧
  final_stderr r = [Traceback FileNotFoundError] ∧
  final_journal r = [WriteLatest []] ∧
  latest (final_world r) = Some (Json []) ∧
  journal p1 = [] ∧
  journal (exception_hook FileNotFoundError p1).2 = [WriteLatest []].
Proof.
  intros w r p1.
  split; [reflexivity | split; [reflexivity |]].
  destruct (missing_latest_file_is_created_by_the_hook w flag_m (streaming [answer "Hi"])
              [Line "hello"; Line "quit"]
              {| messages := []; config := sample_config true "deepseek-chat";
                 _saved := false |} eq_refl eq_refl eq_refl)
    as (_ & H1 & H2 & H3 & H4 & H5 & _ & _ & H6 & _).
  split; [exact H1 | split; [exact H2 | split; [exact H3 | split; [exact H4 |]]]].
  split; [exact H5 | exact H6].
Defined.

(** ** The memory flag of the command line *)

Lemma keeps_should_save (p q : Process) : keeps p q → should_save q = should_save p.
Proof. intros []. unfold should_save. congruence. Qed.

(** Without [-m] the run neither reads nor writes the latest-transcript
    file, whatever the memory key of the settings file says. *)
Lemma run_without_m_never_persists (w : World) (argv : Argv) (svc : Service)
    (script : list prompted) :
  opt_m argv = false →
  let r := run w argv svc script in
  reads_latest (final_journal r) = false ∧
  latest_writes (final_journal r) = [] ∧
  latest (final_world r) = latest w.
Proof.
  intros Hm r. subst r.
  destruct (ConfigManager_init w) as [mgr | arg | e] eqn:Hinit;
    [| unfold run; rewrite Hinit; auto ..].
  rewrite (run_eq _ _ _ _ _ Hinit).
  destruct (ConfigManager_init_fresh _ _ Hinit) as (_ & Hs & _).
  rewrite main_eq, load_transcript_then.
  set (p1 := with_config _ (start mgr w)).
  assert (Hoff : should_save p1 = false).
  { etransitivity; [exact (start_after_flags_should_save argv mgr w Hs) | exact Hm]. }
  assert (Hmem : truthy (dict_get "memory" (VBool true) (config (manager p1))) = false).
  { etransitivity; [exact (start_after_flags_memory argv mgr w) | exact Hm]. }
  rewrite Hmem.
  destruct (session_dispatch (parse_args argv) svc script p1)
    as (q & Hk & Hq).
  assert (Hq' : should_save q = false) by (rewrite (keeps_should_save _ _ Hk); exact Hoff).
  destruct (saved_state_off q Hq') as [Hj Hw].
  destruct Hk as [_ _ Hl _ _ Hwr Hrd].
  destruct Hq as [[a Ha] | [[e He] | Hx]].
  - rewrite Ha, terminate_return. cbn [finish final_journal final_world].
    rewrite Hj, Hw, Hrd, Hwr, Hl. auto.
  - rewrite He, terminate_raise. cbn [finish final_journal final_world traced journal world].
    rewrite Hj, Hw, Hrd, Hwr, Hl. auto.
  - rewrite Hx, terminate_signal. cbn [finish final_journal final_world].
    rewrite Hj, Hw, Hrd, Hwr, Hl. auto.
Qed.

(** With [-m] and a readable latest-transcript file the run reads it and,
    however it ends, writes it back exactly once. *)
Lemma run_with_m_persists (w : World) (argv : Argv) (svc : Service)
    (script : list prompted) (mgr : ConfigManager) (ms : list Message) :
  ConfigManager_init w = Return mgr →
  opt_m argv = true →
  latest w = Some (Json ms) →
  let r := run w argv svc script in
  reads_latest (final_journal r) = true ∧
  ∃ ms', latest_writes (final_journal r) = [ms'] ∧
         latest (final_world r) = Some (Json ms').
Proof.
  intros Hinit Hm Hl r. subst r.
  rewrite (run_eq _ _ _ _ _ Hinit).
  destruct (ConfigManager_init_fresh _ _ Hinit) as (_ & Hs & _).
  rewrite main_eq, load_transcript_then.
  set (p1 := with_config _ (start mgr w)).
  assert (Hon : should_save p1 = true).
  { etransitivity; [exact (start_after_flags_should_save argv mgr w Hs) | exact Hm]. }
  assert (Hmem : truthy (dict_get "memory" (VBool true) (config (manager p1))) = true).
  { etransitivity; [exact (start_after_flags_memory argv mgr w) | exact Hm]. }
  rewrite Hmem.
  replace (latest (world p1)) with (Some (Json ms)) by (symmetry; exact Hl).
  destruct (session_dispatch (parse_args argv) svc script (loaded ms p1))
    as (q & Hk & Hq).
  assert (Hq' : should_save q = true) by (rewrite (keeps_should_save _ _ Hk); exact Hon).
  assert (Hfin : reads_latest (journal (saved_state q)) = true ∧
                 latest_writes (journal (saved_state q)) = [messages (manager q)] ∧
                 latest (world (saved_state q)) = Some (Json (messages (manager q)))).
  { destruct Hk as [_ _ _ _ _ Hwr Hrd].
    unfold saved_state. rewrite Hq'. cbn [journal world set_latest latest].
    split; [| split; [| reflexivity]].
    - unfold reads_latest in *. rewrite existsb_app, Hrd. reflexivity.
    - rewrite latest_writes_app, Hwr. reflexivity. }
  destruct Hfin as (H1 & H2 & H3).
  destruct Hq as [[a Ha] | [[e He] | Hx]].
  - rewrite Ha, terminate_return. cbn [finish final_journal final_world]. eauto.
  - rewrite He, terminate_raise.
    cbn [finish final_journal final_world traced journal world]. eauto.
  - rewrite Hx, terminate_signal. cbn [finish final_journal final_world]. eauto.
Qed.

(** C1. The settings say [memory: True], the transcript of an earlier run
    is in the latest-transcript file, and the program is started without
    [-m]: line 116 overwrites the memory key with [False], the file is not
    read (the request carries the new message only) and the exit does not
    write it. *)
Theorem memory_of_settings_is_dropped_without_m :
  let w := sample_world true "deepseek-chat" (Some (Json [user "earlier"; assistant "reply"])) in
  let r := run w no_flags (streaming [answer "Hi"; answer " there"])
               [Line "hello"; Line "quit"] in
  ConfigManager_init w
  = Return {| messages := []; config := sample_config true "deepseek-chat";
              _saved := false |} ∧
  exit_status r = 0 ∧
  final_journal r = [] ∧
  latest (final_world r) = Some (Json [user "earlier"; assistant "reply"]) ∧
  (messages <$> final_manager r) = Some [user "hello"; assistant "Hi there"] ∧
  (dict_lookup (VStr "memory") ∘ config <$> final_manager r) = Some (Some (VBool false)).
Proof. vm_compute. auto 10. Qed.

(** ** The [-k] flag *)

(** Without a settings file the process ends in [ConfigManager()], at
    module level: nothing is written, whatever the command line says. *)
Lemma run_without_settings (w : World) (argv : Argv) (svc : Service)
    (script : list prompted) :
  settings w = None →
  run w argv svc script
  = {| exit_status := 1; final_manager := None; final_world := w;
       final_stdout := []; final_stderr := [ExitText (ConfigMissing (config_path w))];
       final_journal := [] |}.
Proof.
  intros H. unfold run, ConfigManager_init, _validate_config. rewrite H. reflexivity.
Qed.

(** A finite float is read again as itself from its text; [inf] and [nan]
    are written as names, which [literal_eval] refuses. *)
Lemma literal_eval_repr_float (x : float) :
  literal_eval (repr (VFloat x))
  = match x with
    | Finite _ => Ok (VFloat x)
    | Inf _ | NaN => Err ValueError
    end.
Proof.
  destruct x as [[n d] | [|] |]; try reflexivity.
  cbn [repr]. unfold signed, float_negative. cbn [Qnum].
  destruct (Z.ltb n 0); [| reflexivity].
  cbn [float_opp float_text literal_eval convert_signed_num convert_num result_bind py_neg].
  unfold Qopp. cbn [Qnum Qden]. rewrite Z.opp_involutive. reflexivity.
Qed.

(** The configuration the file written by [-k] holds when it is read again. *)
Lemma literal_eval_default_config (k : string) (t : float) :
  literal_eval (repr (VDict
    [ (VStr "api_key", VStr k);
      (VStr "base_url", VStr "https://api.deepseek.com");
      (VStr "model", VStr "deepseek-chat");
      (VStr "temperature", VFloat t);
      (VStr "memory", VBool false) ]))
  = match t with
    | Finite _ =>
        Ok (VDict
          [ (VStr "api_key", VStr k);
            (VStr "base_url", VStr "https://api.deepseek.com");
            (VStr "model", VStr "deepseek-chat");
            (VStr "temperature", VFloat t);
            (VStr "memory", VBool false) ])
    | Inf _ | NaN => Err ValueError
    end.
Proof.
  pose proof (literal_eval_repr_float t) as Ht.
  cbn [repr] in *. cbn [literal_eval result_bind value_of_constant hashable].
  rewrite Ht. destruct t; reflexivity.
Qed.

Lemma write_new_config_eq (args : Namespace.t) (p : Process) :
  write_new_config args p = (Return tt, written args p).
Proof. reflexivity. Qed.

(** X11. With a valid settings file, [-k] with a key (and no [-m]) writes a new
    settings file with [memory: False] and the temperature of [-t] or 0.7,
    prints that it did, and ends there: no transcript is read, no prompt is
    shown, status 0. The file is read again as the dict that was written
    when the temperature is finite; [-t inf] and [-t nan] are written as the
    names [inf] and [nan], and the file then fails to load with a
    [ValueError]. *)
Lemma key_flag_writes_new_settings (w : World) (argv : Argv) (svc : Service)
    (script : list prompted) (mgr : ConfigManager) (k : string) :
  ConfigManager_init w = Return mgr →
  opt_k argv = Some k → k ≠ "" → opt_m argv = false →
  let r := run w argv svc script in
  let t := default (Finite (7 # 10)) (opt_t argv) in
  let src := Module [Assign [Name "DATABASE"] (repr (VDict (default_config (parse_args argv))))] in
  exit_status r = 0 ∧
  final_journal r = [WriteSettings src] ∧
  settings (final_world r) = Some src ∧
  latest (final_world r) = latest w ∧
  final_stdout r = [Text (("已创建新配置文件：" +:+ config_path w) +:+ nl)] ∧
  _safe_load_config (final_world r)
  = match t with
    | Finite _ =>
        Ok (VDict
          [ (VStr "api_key", VStr k);
            (VStr "base_url", VStr "https://api.deepseek.com");
            (VStr "model", VStr "deepseek-chat");
            (VStr "temperature", VFloat t);
            (VStr "memory", VBool false) ])
    | Inf _ | NaN => Err ValueError
    end.
Proof.
  intros Hinit Hk Hne Hm r t src. subst r.
  rewrite (run_eq _ _ _ _ _ Hinit).
  destruct (ConfigManager_init_fresh _ _ Hinit) as (_ & Hs & _).
  rewrite main_eq, load_transcript_then.
  set (p1 := with_config _ (start mgr w)).
  assert (Hoff : should_save p1 = false).
  { etransitivity; [exact (start_after_flags_should_save argv mgr w Hs) | exact Hm]. }
  assert (Hmem : truthy (dict_get "memory" (VBool true) (config (manager p1))) = false).
  { etransitivity; [exact (start_after_flags_memory argv mgr w) | exact Hm]. }
  rewrite Hmem.
  assert (Hkey : Namespace.key (parse_args argv) = VStr k).
  { unfold parse_args. cbn [Namespace.key]. rewrite Hk. reflexivity. }
  assert (Htemp : Namespace.temperature (parse_args argv) = VFloat t).
  { unfold parse_args. cbn [Namespace.temperature]. subst t.
    destruct (opt_t argv); reflexivity. }
  assert (Htruthy : truthy (VStr k) = true).
  { cbn [truthy]. destruct (String.eqb_spec k ""); [contradiction | reflexivity]. }
  unfold dispatch. rewrite Hkey, Htruthy, write_new_config_eq, terminate_return.
  set (p2 := written _ p1).
  assert (H2 : should_save p2 = false) by exact Hoff.
  unfold saved_state. rewrite H2.
  cbn [finish exit_status final_journal final_world final_stdout journal world
       stdout settings latest set_settings p2 written p1 with_config start app].
  repeat split.
  unfold _safe_load_config.
  cbn [settings find_DATABASE]. cbn [String.eqb Ascii.eqb Bool.eqb].
  unfold default_config. rewrite Hkey, Htemp.
  apply literal_eval_default_config.
Qed.

(** C4. No settings file, and the program is started with [-k mykey]:
    [ConfigManager()] runs first, at module level, and ends the process with
    the message that the file does not exist (status 1). [main] is never
    entered, so no settings file is written. *)
Theorem key_flag_without_settings_writes_nothing (svc : Service) (script : list prompted) :
  let w := {| script_dir := "/opt/ds"; settings := None; latest := None;
              cwd := ∅; today := "2026-11-03"; client_error := fun _ _ => None |} in
  let r := run w (flag_k "mykey") svc script in
  exit_status r = 1 ∧
  final_stderr r = [ExitText (ConfigMissing "/opt/ds/settings.py")] ∧
  final_journal r = [] ∧
  settings (final_world r) = None ∧
  final_manager r = None.
Proof. intros w r. subst r. rewrite run_without_settings by reflexivity. auto. Qed.

(** ** Loading the configuration *)

Lemma dict_contains_string_keys (s : string) (d : dict) :
  dict_contains (VStr s) d = true ↔ s ∈ string_keys d.
Proof.
  unfold dict_contains. rewrite bool_decide_eq_true.
  induction d as [| [k v] d IH]; cbn [dict_lookup string_keys omap].
  - split; [intros [? [=]] | intros H; inversion H].
  - destruct (key_eqb k (VStr s)) eqn:E.
    + apply key_eqb_str in E. subst k. cbn. split; [intros _; left | eauto].
    + fold (string_keys d). rewrite IH.
      destruct k; cbn; try reflexivity.
      rewrite elem_of_cons. split; [auto | intros [-> | H]; [| exact H]].
      rewrite key_eqb_str_refl in E. discriminate.
Qed.

Lemma all_in_dict (ks : list string) (d : dict) :
  all_in ks (VDict d) = Ok (forallb (fun k => dict_contains (VStr k) d) ks).
Proof.
  induction ks as [| k ks IH]; cbn [all_in forallb py_in result_bind]; [reflexivity |].
  destruct (dict_contains (VStr k) d); [exact IH | reflexivity].
Qed.

(** For a value that is no dict, [_validate_config] ends in an error that
    the [except] clause turns into an exit. *)
Lemma validate_not_dict (v : value) :
  (∀ d, v ≠ VDict d) →
  ∃ e, result_bind (all_in (elements required_keys) v) (fun all_present =>
         if all_present
         then result_bind (py_setitem "stream" (VBool true) v) (fun d => Ok (Return d))
         else result_bind (py_keys v) (fun ks =>
           Ok (SystemExit (Message_ (ConfigIncomplete (required_keys ∖ ks))))))
       = Err e.
Proof.
  intros Hv.
  destruct (all_in (elements required_keys) v) as [[|] | e] eqn:E;
    cbn [result_bind]; [| | eauto].
  - destruct v; cbn [py_setitem result_bind]; eauto. destruct (Hv items eq_refl).
  - destruct v; cbn [py_keys result_bind]; eauto. destruct (Hv items eq_refl).
Qed.

Lemma safe_load_needs_settings (w : World) (v : value) :
  _safe_load_config w = Ok v → settings w ≠ None.
Proof. unfold _safe_load_config. destruct (settings w); [discriminate | discriminate]. Qed.

Lemma validate_config_dict (w : World) (d : dict) :
  _safe_load_config w = Ok (VDict d) →
  _validate_config w =
  if complete d then Return (dict_set (VStr "stream") (VBool true) d)
  else SystemExit (Message_ (ConfigIncomplete
         (required_keys ∖ list_to_set (string_keys d)))).
Proof.
  intros H. pose proof (safe_load_needs_settings _ _ H) as Hs.
  unfold _validate_config. destruct (settings w); [| contradiction].
  rewrite H. cbn [result_bind]. rewrite all_in_dict. cbn [result_bind].
  fold (complete d). destruct (complete d); reflexivity.
Qed.

Lemma validate_config_not_dict (w : World) (v : value) :
  _safe_load_config w = Ok v → (∀ d, v ≠ VDict d) →
  ∃ e, _validate_config w = SystemExit (Message_ (ConfigParseFailed e)).
Proof.
  intros H Hv. pose proof (safe_load_needs_settings _ _ H) as Hs.
  unfold _validate_config. destruct (settings w); [| contradiction].
  rewrite H. cbn [result_bind].
  destruct (validate_not_dict v Hv) as [e He]. rewrite He. eauto.
Qed.

Lemma validate_config_unreadable (w : World) (e : exn) :
  settings w ≠ None → _safe_load_config w = Err e →
  _validate_config w = SystemExit (Message_ (ConfigParseFailed e)).
Proof.
  intros Hs H. unfold _validate_config. destruct (settings w); [| contradiction].
  rewrite H. reflexivity.
Qed.

Lemma validate_config_missing (w : World) :
  settings w = None →
  _validate_config w = SystemExit (Message_ (ConfigMissing (config_path w))).
Proof. intros H. unfold _validate_config. rewrite H. reflexivity. Qed.

(** [_validate_config] returns a configuration or exits with a message;
    no error escapes it. *)
Lemma validate_config_total (w : World) :
  (∃ d, _safe_load_config w = Ok (VDict d) ∧ complete d = true ∧
        _validate_config w = Return (dict_set (VStr "stream") (VBool true) d)) ∨
  (∃ m, _validate_config w = SystemExit (Message_ m)).
Proof.
  destruct (settings w) as [src |] eqn:Hs.
  - destruct (_safe_load_config w) as [v | e] eqn:Hl.
    + assert (Hv : (∃ d, v = VDict d) ∨ (∀ d, v ≠ VDict d)).
      { destruct v; try (right; intros d; discriminate). left. eauto. }
      destruct Hv as [[d ->] | Hn].
      * rewrite (validate_config_dict w d Hl).
        destruct (complete d) eqn:Hc; [left; eauto | right; eauto].
      * right. destruct (validate_config_not_dict w v Hl Hn) as [e He]. eauto.
    + right. rewrite (validate_config_unreadable w e); [eauto | congruence | exact Hl].
  - right. rewrite (validate_config_missing w Hs). eauto.
Qed.

(** *** Only literals are evaluated *)

Section expr_induction.
Variable P : expr → Prop.
Hypothesis HConstant : ∀ c, P (Constant c).
Hypothesis HTuple : ∀ elts, Forall P elts → P (Tuple elts).
Hypothesis HList : ∀ elts, Forall P elts → P (List elts).
Hypothesis HSet : ∀ elts, Forall P elts → P (Set_ elts).
Hypothesis HDict : ∀ items,
  Forall (fun kv => match kv.1 with Some ke => P ke | None => True end ∧ P kv.2) items →
  P (Dict items).
Hypothesis HUnaryOp : ∀ op operand, P operand → P (UnaryOp op operand).
Hypothesis HName : ∀ id, P (Name id).
Hypothesis HCall : ∀ func args keywords, P func → Forall P args → P (Call func args keywords).
Hypothesis HOther : P OtherExpr.
Hypothesis HBinOp : ∀ lhs op rhs, P lhs → P rhs → P (BinOp lhs op rhs).

Lemma expr_induction : ∀ e, P e.
Proof.
  exact (fix expr_induction (e : expr) : P e :=
  let all :=
    fix all (es : list expr) : Forall P es :=
      match es with
      | [] => @List.Forall_nil _ P
      | e' :: es' => @List.Forall_cons _ P e' es' (expr_induction e') (all es')
      end in
  match e with
  | Constant c => HConstant c
  | Tuple elts => HTuple elts (all elts)
  | List elts => HList elts (all elts)
  | Set_ elts => HSet elts (all elts)
  | Dict items =>
      HDict items
        ((fix both (kvs : list (option expr * expr))
            : Forall (fun kv => match kv.1 with Some ke => P ke | None => True end
                                ∧ P kv.2) kvs :=
            match kvs with
            | [] => @List.Forall_nil _ _
            | (ko, ve) :: kvs' =>
                @List.Forall_cons _
                  (fun kv => match kv.1 with Some ke => P ke | None => True end ∧ P kv.2)
                  (ko, ve) kvs'
                  (conj (match ko as o
                               return match o with Some ke => P ke | None => True end with
                         | Some ke => expr_induction ke
                         | None => I
                         end)
                        (expr_induction ve))
                  (both kvs')
            end) items)
  | UnaryOp op operand => HUnaryOp op operand (expr_induction operand)
  | Name id => HName id
  | Call func args keywords => HCall func args keywords (expr_induction func) (all args)
  | OtherExpr => HOther
  | BinOp lhs op rhs => HBinOp lhs op rhs (expr_induction lhs) (expr_induction rhs)
  end).
Qed.
End expr_induction.

Lemma result_bind_ok {A B} (r : result A) (k : A → result B) (b : B) :
  result_bind r k = Ok b → ∃ a, r = Ok a ∧ k a = Ok b.
Proof. destruct r as [a | e]; [eauto | discriminate]. Qed.

Lemma convert_num_is_number (e : expr) (v : value) :
  convert_num e = Ok v → is_number e = true.
Proof. destruct e as [[] | | | | | | | | |]; cbn; congruence. Qed.

Lemma convert_signed_num_is_signed_number (e : expr) (v : value) :
  convert_signed_num e = Ok v → is_signed_number e = true.
Proof.
  destruct e as [c | | | | | op operand | | | |];
    try (cbn; discriminate); try exact (convert_num_is_number _ v).
  destruct op; cbn [convert_signed_num is_signed_number]; try discriminate.
  - apply convert_num_is_number.
  - intros H. apply result_bind_ok in H as (x & H & _).
    exact (convert_num_is_number _ _ H).
Qed.

(** What [literal_eval] evaluates is built from literal nodes only: a name,
    a call (other than [set()]) or any other node anywhere in the expression
    makes it fail. *)
Lemma literal_eval_is_literal (e : expr) (v : value) :
  literal_eval e = Ok v → is_literal e = true.
Proof.
  revert v. induction e as [c | elts IH | elts IH | elts IH | items IH
                            | op operand IH | id | func args keywords IHf IHa |
                            | lhs op rhs IHl IHr]
    using expr_induction; intros v.
  - reflexivity.
  - cbn [literal_eval is_literal].
    intros H. apply result_bind_ok in H as (vs & H & _). clear v.
    revert vs H. induction IH as [| e' es' He' _ IHes]; intros vs H; [reflexivity |].
    apply result_bind_ok in H as (v' & Hv' & H).
    apply result_bind_ok in H as (vs' & Hvs' & _).
    cbn [forallb]. rewrite (He' _ Hv'), (IHes _ Hvs'). reflexivity.
  - cbn [literal_eval is_literal].
    intros H. apply result_bind_ok in H as (vs & H & _). clear v.
    revert vs H. induction IH as [| e' es' He' _ IHes]; intros vs H; [reflexivity |].
    apply result_bind_ok in H as (v' & Hv' & H).
    apply result_bind_ok in H as (vs' & Hvs' & _).
    cbn [forallb]. rewrite (He' _ Hv'), (IHes _ Hvs'). reflexivity.
  - cbn [literal_eval is_literal].
    intros H. apply result_bind_ok in H as (vs & H & _). clear v.
    revert vs H. generalize (@nil value).
    induction IH as [| e' es' He' _ IHes]; intros acc vs H; [reflexivity |].
    apply result_bind_ok in H as (v' & Hv' & H).
    destruct (hashable v'); [| discriminate].
    cbn [forallb]. rewrite (He' _ Hv'), (IHes _ _ H). reflexivity.
  - cbn [literal_eval is_literal].
    intros H. apply result_bind_ok in H as (d & H & _). clear v.
    revert d H. generalize (@nil (value * value)).
    induction IH as [| [[ke |] ve] kvs' [Hke Hve] _ IHkvs]; intros acc d H;
      [reflexivity | | discriminate].
    apply result_bind_ok in H as (k & Hk & H).
    apply result_bind_ok in H as (v' & Hv' & H).
    destruct (hashable k); [| discriminate].
    cbn [forallb]. cbn [fst snd] in Hke, Hve.
    rewrite (Hke _ Hk), (Hve _ Hv'), (IHkvs _ _ H). reflexivity.
  - destruct op; cbn [literal_eval convert_signed_num is_literal]; try discriminate.
    + apply convert_num_is_number.
    + intros H. apply result_bind_ok in H as (x & H & _).
      exact (convert_num_is_number _ _ H).
  - discriminate.
  - destruct func; try discriminate. destruct args; [| discriminate].
    destruct keywords; [| discriminate].
    cbn [literal_eval is_literal].
    destruct (String.eqb id "set"); [reflexivity | discriminate].
  - discriminate.
  - destruct op; cbn [literal_eval is_literal]; try discriminate;
      intros H; apply result_bind_ok in H as (l & Hl & H);
      apply result_bind_ok in H as (r & Hr & _);
      rewrite (convert_signed_num_is_signed_number _ _ Hl),
              (convert_num_is_number _ _ Hr); reflexivity.
Qed.

Lemma find_DATABASE_literal (body : list stmt) (v : value) :
  find_DATABASE body = Ok v →
  ∃ e, Assign [Name "DATABASE"] e ∈ body ∧ is_literal e = true ∧ literal_eval e = Ok v.
Proof.
  induction body as [| st body IH]; cbn [find_DATABASE]; [discriminate |].
  assert (Hrest : find_DATABASE body = Ok v →
    ∃ e, Assign [Name "DATABASE"] e ∈ st :: body ∧ is_literal e = true
         ∧ literal_eval e = Ok v).
  { intros H. destruct (IH H) as (e & He & Hl). exists e.
    split; [right; exact He | exact Hl]. }
  destruct st as [targets e |]; [| exact Hrest].
  destruct targets as [| target others]; [exact Hrest |].
  destruct target, others; try exact Hrest.
  destruct (String.eqb_spec id "DATABASE") as [-> | _]; [| exact Hrest].
  intros H. exists e. split; [left | split; [exact (literal_eval_is_literal _ _ H) | exact H]].
Qed.

(** *** The required keys *)

Lemma dict_contains_lookup (k : value) (d : dict) :
  dict_contains k d = false ↔ dict_lookup k d = None.
Proof.
  unfold dict_contains. rewrite bool_decide_eq_false.
  destruct (dict_lookup k d); split; intros H; try congruence.
  - destruct H. eauto.
  - intros [? [=]].
Qed.

Lemma missing_keys (d : dict) (k : string) :
  k ∈ required_keys ∖ list_to_set (string_keys d)
  ↔ k ∈ required_keys ∧ dict_lookup (VStr k) d = None.
Proof.
  rewrite elem_of_difference, elem_of_list_to_set.
  rewrite <- dict_contains_string_keys, <- dict_contains_lookup.
  destruct (dict_contains (VStr k) d); intuition congruence.
Qed.

Lemma forallb_false {A} (f : A → bool) (xs : list A) :
  forallb f xs = false ↔ ∃ x, x ∈ xs ∧ f x = false.
Proof.
  induction xs as [| x xs IH]; cbn [forallb].
  - split; [discriminate | intros (x & Hx & _); inversion Hx].
  - destruct (f x) eqn:E; cbn [andb].
    + rewrite IH. split.
      * intros (y & Hy & Hf). exists y. split; [right; exact Hy | exact Hf].
      * intros (y & Hy & Hf). apply elem_of_cons in Hy as [-> | Hy]; [congruence | eauto].
    + split; [intros _; exists x; split; [left | exact E] | reflexivity].
Qed.

Lemma complete_false (d : dict) :
  complete d = false ↔ ∃ k, k ∈ required_keys ∧ dict_lookup (VStr k) d = None.
Proof.
  unfold complete. rewrite forallb_false.
  split; intros (k & Hk & Hl); exists k.
  - apply elem_of_elements in Hk. apply dict_contains_lookup in Hl. auto.
  - split; [apply elem_of_elements, Hk | apply dict_contains_lookup, Hl].
Qed.

Lemma required_keys_elements :
  elements required_keys = ["model"; "memory"; "api_key"; "base_url"; "temperature"].
Proof. vm_compute. reflexivity. Qed.

Lemma stream_not_required : "stream" ∉ required_keys.
Proof.
  rewrite <- elem_of_elements, required_keys_elements. intros H.
  repeat (apply elem_of_cons in H as [H | H]; [discriminate |]).
  inversion H.
Qed.

Lemma complete_true (d : dict) (k : string) :
  complete d = true → k ∈ required_keys → is_Some (dict_lookup (VStr k) d).
Proof.
  intros Hc Hk. destruct (dict_lookup (VStr k) d) eqn:E; [eauto |].
  assert (complete d = false) by (apply complete_false; eauto). congruence.
Qed.

(** C8. [ConfigManager()] ends the process when the settings file is absent,
    when it cannot be read as a literal (the error is kept in the message),
    and when the loaded dict lacks a required key, in which case the message
    holds exactly the required keys that are missing. What is loaded comes
    from a [DATABASE = ...] assignment built from literal nodes only. When
    the manager is created its configuration holds the five required keys
    and the key [stream] set to [True]. Whenever the manager is not created the
    process ends with status 1 before [main]: nothing is prompted, printed
    or written. *)
Theorem configuration_is_validated_before_use :
  (∀ w, settings w = None →
     ConfigManager_init w = SystemExit (Message_ (ConfigMissing (config_path w)))) ∧
  (∀ w e, settings w ≠ None → _safe_load_config w = Err e →
     ConfigManager_init w = SystemExit (Message_ (ConfigParseFailed e))) ∧
  (∀ w v, _safe_load_config w = Ok v →
     ∃ body e, settings w = Some (Module body) ∧ Assign [Name "DATABASE"] e ∈ body ∧
               is_literal e = true ∧ literal_eval e = Ok v) ∧
  (∀ w v, _safe_load_config w = Ok v → (∀ d, v ≠ VDict d) →
     ∃ e, ConfigManager_init w = SystemExit (Message_ (ConfigParseFailed e))) ∧
  (∀ w d k, _safe_load_config w = Ok (VDict d) →
     k ∈ required_keys → dict_lookup (VStr k) d = None →
     let missing := required_keys ∖ list_to_set (string_keys d) in
     ConfigManager_init w = SystemExit (Message_ (ConfigIncomplete missing)) ∧
     k ∈ missing ∧
     ∀ k', k' ∈ missing ↔ k' ∈ required_keys ∧ dict_lookup (VStr k') d = None) ∧
  (∀ w d, _safe_load_config w = Ok (VDict d) →
     (∀ k, k ∈ required_keys → is_Some (dict_lookup (VStr k) d)) →
     ConfigManager_init w
     = Return {| messages := []; config := dict_set (VStr "stream") (VBool true) d;
                 _saved := false |}) ∧
  (∀ w mgr, ConfigManager_init w = Return mgr →
     dict_lookup (VStr "stream") (config mgr) = Some (VBool true) ∧
     (∀ k, k ∈ required_keys → is_Some (dict_lookup (VStr k) (config mgr))) ∧
     ∃ d, _safe_load_config w = Ok (VDict d) ∧
          config mgr = dict_set (VStr "stream") (VBool true) d) ∧
  (∀ w argv svc script, (∀ mgr, ConfigManager_init w ≠ Return mgr) →
     let r := run w argv svc script in
     exit_status r = 1 ∧ (∃ m, final_stderr r = [ExitText m]) ∧
     final_stdout r = [] ∧ final_journal r = [] ∧
     final_manager r = None ∧ final_world r = w).
Proof.
  repeat apply conj.
  - intros w H. unfold ConfigManager_init. rewrite (validate_config_missing w H). reflexivity.
  - intros w e Hs H. unfold ConfigManager_init.
    rewrite (validate_config_unreadable w e Hs H). reflexivity.
  - intros w v H. unfold _safe_load_config in H.
    destruct (settings w) as [[| body] |]; try discriminate.
    destruct (find_DATABASE_literal body v H) as (e & He). eauto.
  - intros w v H Hv. destruct (validate_config_not_dict w v H Hv) as [e He].
    exists e. unfold ConfigManager_init. rewrite He. reflexivity.
  - intros w d k H Hk Hl missing.
    assert (Hc : complete d = false) by (apply complete_false; eauto).
    split; [| split].
    + unfold ConfigManager_init. rewrite (validate_config_dict w d H), Hc. reflexivity.
    + apply missing_keys. auto.
    + intros k'. apply missing_keys.
  - intros w d H Hall.
    assert (Hc : complete d = true).
    { destruct (complete d) eqn:E; [reflexivity |].
      apply complete_false in E as (k & Hk & Hl).
      destruct (Hall k Hk) as [x Hx]. congruence. }
    unfold ConfigManager_init. rewrite (validate_config_dict w d H), Hc. reflexivity.
  - intros w mgr H. destruct (ConfigManager_init_fresh _ _ H) as (_ & _ & Hv).
    destruct (validate_config_total w) as [(d & Hl & Hc & Hd) | [m Hm]]; [| congruence].
    assert (Hcfg : config mgr = dict_set (VStr "stream") (VBool true) d) by congruence.
    rewrite Hcfg. split; [apply dict_lookup_set_eq | split; [| eauto]].
    intros k Hk. rewrite dict_lookup_set_ne.
    + exact (complete_true d k Hc Hk).
    + intros <-. exact (stream_not_required Hk).
  - intros w argv svc script Hno r. subst r. unfold run, ConfigManager_init in *.
    destruct (validate_config_total w) as [(d & _ & _ & Hd) | [m Hm]].
    + rewrite Hd in Hno. destruct (Hno _ eq_refl).
    + rewrite Hm. cbn. eauto 10.
Qed.

Lemma memory_required : "memory" ∈ required_keys.
Proof.
  rewrite <- elem_of_elements, required_keys_elements.
  right. left.
Qed.

Lemma configuration_is_validated_before_use_witness :
  let d := [ (VStr "api_key", VStr "x");
             (VStr "base_url", VStr "https://api.deepseek.com");
             (VStr "model", VStr "deepseek-chat");
             (VStr "temperature", VFloat (7 # 10)) ] in
  (_safe_load_config (world_with settings_without_memory) = Ok (VDict d) ∧
   "memory" ∈ required_keys ∧
   dict_lookup (VStr "memory") d = None ∧
   ConfigManager_init (world_with settings_without_memory)
   = SystemExit (Message_ (ConfigIncomplete
       (required_keys ∖ list_to_set (string_keys d)))) ∧
   "memory" ∈ required_keys ∖ list_to_set (string_keys d)) ∧
  (settings (world_with settings_with_a_call) ≠ None ∧
   _safe_load_config (world_with settings_with_a_call) = Err ValueError ∧
   ConfigManager_init (world_with settings_with_a_call)
   = SystemExit (Message_ (ConfigParseFailed ValueError))) ∧
  (ConfigManager_init (sample_world true "deepseek-chat" None)
   = Return {| messages := []; config := sample_config true "deepseek-chat";
               _saved := false |}).
Proof.
  intros d.
  destruct configuration_is_validated_before_use
    as (_ & Hparse & _ & _ & Hmissing & Hgood & _ & _).
  split; [| split].
  - destruct (Hmissing (world_with settings_without_memory) d "memory"
                eq_refl memory_required eq_refl) as (Hexit & Hin & _).
    split; [reflexivity | split; [exact memory_required | split; [reflexivity |]]].
    split; [exact Hexit | exact Hin].
  - split; [discriminate | split; [reflexivity |]].
    apply (Hparse (world_with settings_with_a_call) ValueError);
      [discriminate | reflexivity].
  - apply (Hgood (sample_world true "deepseek-chat" None)
             [ (VStr "api_key", VStr "x");
               (VStr "base_url", VStr "https://api.deepseek.com");
               (VStr "model", VStr "deepseek-chat");
               (VStr "temperature", VFloat (7 # 10));
               (VStr "memory", VBool true) ]); [reflexivity |].
    intros k Hk. apply elem_of_elements in Hk. rewrite required_keys_elements in Hk.
    repeat (apply elem_of_cons in Hk as [-> | Hk]; [eexists; reflexivity |]).
    inversion Hk.
Defined.

(** ** The streamed turn *)

Lemma append_assoc (s t u : string) : (s +:+ t) +:+ u = s +:+ (t +:+ u).
Proof.
  induction s as [| c s IH]; [reflexivity |].
  change (String c ((s +:+ t) +:+ u) = String c (s +:+ (t +:+ u))).
  f_equal. exact IH.
Qed.

Lemma append_nil_r (s : string) : s +:+ "" = s.
Proof.
  induction s as [| c s IH]; [reflexivity |].
  change (String c (s +:+ "") = String c s). f_equal. exact IH.
Qed.

Lemma append_eqb_nil (s t : string) :
  String.eqb t "" = false → String.eqb (s +:+ t) "" = false.
Proof. destruct s, t; auto. Qed.

Lemma fragment_some (o : option string) (s : string) :
  fragment o = Some s → o = Some s ∧ String.eqb s "" = false.
Proof.
  destruct o as [t |]; cbn [fragment]; [| discriminate].
  destruct (String.eqb t "") eqn:E; [discriminate |]. intros [= <-]. auto.
Qed.

Lemma printed_nil (p : Process) : printed [] p = p.
Proof. destruct p. unfold printed. cbn. rewrite app_nil_r. reflexivity. Qed.

Lemma printed_printed (xs ys : list out_item) (p : Process) :
  printed ys (printed xs p) = printed (xs ++ ys) p.
Proof. unfold printed. cbn. rewrite app_assoc. reflexivity. Qed.

Lemma bind_ret {A B} (a : A) (k : A → M B) (p : Process) : bind (ret a) k p = k a p.
Proof. reflexivity. Qed.

Lemma bind_bind {A B C} (m : M A) (k : A → M B) (h : B → M C) (p : Process) :
  bind (bind m k) h p = bind m (fun a => bind (k a) h) p.
Proof. unfold bind. destruct (m p) as [[a | arg | e] p']; reflexivity. Qed.

Lemma bind_write {A} (item : out_item) (k : unit → M A) (p : Process) :
  bind (write item) k p = k tt (printed [item] p).
Proof. reflexivity. Qed.

Lemma bind_config_getitem {A} (key : string) (v : value) (k : value → M A) (p : Process) :
  dict_lookup (VStr key) (config (manager p)) = Some v →
  bind (config_getitem key) k p = k v p.
Proof.
  intros H. unfold config_getitem. rewrite bind_bind. unfold bind at 1, get_manager.
  rewrite H. reflexivity.
Qed.

Lemma bind_get_manager {A} (k : ConfigManager → M A) (p : Process) :
  bind get_manager k p = k (manager p) p.
Proof. reflexivity. Qed.

(** The loop over a stream that ends normally, as two pure functions: the
    content it returns and what it prints. *)
Lemma consume_eq (chunks : list chunk) (reasoning_content content : string)
    (p : Process) (model : value) :
  dict_lookup (VStr "model") (config (manager p)) = Some model →
  consume (Delta <$> chunks) reasoning_content content p
  = (Return (content +:+ persisted chunks),
     printed (shown (eq_str model "deepseek-reasoner") chunks reasoning_content) p).
Proof.
  intros Hmodel. revert reasoning_content content p Hmodel.
  induction chunks as [| c chunks IH]; intros rc ct p Hmodel;
    cbn [fmap list_fmap consume persisted shown].
  - rewrite append_nil_r, printed_nil. reflexivity.
  - destruct (fragment (delta_reasoning_content c)) as [r |].
    + destruct (String.eqb rc ""); cbn [when]; unfold print_noend;
        rewrite ?bind_ret, ?bind_write, IH by exact Hmodel;
        rewrite ?printed_printed; reflexivity.
    + destruct (fragment (delta_content c)) as [a |]; cbn [default];
        [| apply IH, Hmodel].
      destruct (String.eqb rc ""); cbn [andb].
      * rewrite bind_bind, (bind_config_getitem "model" model) by exact Hmodel.
        rewrite bind_ret.
        destruct (eq_str model "deepseek-reasoner"); cbn [when];
          unfold print, print_noend;
          rewrite ?bind_bind, ?bind_ret, ?bind_write, IH by exact Hmodel;
          rewrite ?printed_printed, append_assoc; reflexivity.
      * rewrite bind_ret. cbn [when]. unfold print_noend.
        rewrite ?bind_ret, ?bind_write, IH by exact Hmodel.
        rewrite ?printed_printed, append_assoc. reflexivity.
Qed.

(** A streamed turn whose stream ends normally. *)
Lemma streamed_turn_eq (svc : Service) (chunks : list chunk) (p : Process)
    (model temperature : value) :
  dict_lookup (VStr "model") (config (manager p)) = Some model →
  dict_lookup (VStr "temperature") (config (manager p)) = Some temperature →
  create_stream svc {| model := model; request_messages := messages (manager p);
                       stream := true; temperature := temperature |}
  = Replied (Delta <$> chunks) →
  streamed_turn svc p
  = (Return tt,
     appended (assistant (persisted chunks))
       (printed (Text ("DeepSeek> " +:+ nl)
                 :: shown (eq_str model "deepseek-reasoner") chunks "" ++ [Text nl]) p)).
Proof.
  intros Hmodel Htemp Hreply. unfold streamed_turn.
  rewrite (bind_config_getitem "model" model) by exact Hmodel.
  rewrite bind_get_manager.
  rewrite (bind_config_getitem "temperature" temperature) by exact Htemp.
  rewrite Hreply. cbn [await]. rewrite bind_ret. unfold print.
  rewrite bind_write. unfold bind at 1.
  rewrite (consume_eq chunks "" "" _ model) by exact Hmodel.
  rewrite bind_write, !printed_printed. reflexivity.
Qed.

Lemma shown_after_reasoning (reasoner : bool) (chunks : list chunk) (rc : string) :
  String.eqb rc "" = false → shown reasoner chunks rc = echo chunks.
Proof.
  revert rc. induction chunks as [| c chunks IH]; intros rc Hrc; [reflexivity |].
  cbn [shown echo]. rewrite Hrc. cbn [andb app].
  destruct (fragment (delta_reasoning_content c)) as [r |] eqn:Er.
  - f_equal. apply IH.
    apply append_eqb_nil. apply fragment_some in Er as [_ Er]. exact Er.
  - destruct (fragment (delta_content c)) as [a |]; [f_equal |]; apply IH, Hrc.
Qed.

(** A stream that opens with reasoning text never gets the marker, whatever
    the model: the test of line 170 wants no reasoning text seen. *)
Lemma shown_reasoning_first (reasoner : bool) (c : chunk) (chunks : list chunk) (r : string) :
  fragment (delta_reasoning_content c) = Some r →
  shown reasoner (c :: chunks) "" = Text "Thinking :" :: Text r :: echo chunks.
Proof.
  intros Hr. cbn [shown]. rewrite Hr. cbn [String.eqb app].
  rewrite shown_after_reasoning; [reflexivity |].
  apply fragment_some in Hr as [_ Hr]. destruct r; [discriminate | reflexivity].
Qed.

(** With the reasoner and no reasoning text in the stream, the marker comes
    before every answer fragment. *)
Lemma shown_answers_only (chunks : list chunk) :
  Forall (fun c => fragment (delta_reasoning_content c) = None) chunks →
  shown true chunks ""
  = flat_map (fun c => match fragment (delta_content c) with
                       | Some a => [Text nl; Text (reasoning_finished +:+ nl); Text a]
                       | None => []
                       end) chunks.
Proof.
  induction 1 as [| c chunks Hc _ IH]; [reflexivity |].
  cbn [shown flat_map]. rewrite Hc.
  destruct (fragment (delta_content c)); cbn [String.eqb andb]; rewrite IH; reflexivity.
Qed.

(** C3. The reasoner model streams "Let me think" as reasoning and then
    "42" as answer: the console shows the reasoning and the answer with no
    marker between them. When the same model streams the answer "Hi",
    " there" with no reasoning, the marker is printed twice, once before
    each answer chunk. *)
Theorem reasoning_finished_marker_is_misplaced :
  let w := sample_world true "deepseek-reasoner" (Some (Json [])) in
  let saved := Text (("数据已保存到 " +:+ "/opt/ds/latest.json") +:+ nl) in
  final_stdout (run w flag_m (streaming [reasoning "Let me think"; answer "42"])
                    [Line "question"; Line "quit"])
  = [ Text ("DeepSeek> " +:+ nl); Text "Thinking :"; Text "Let me think";
      Text "42"; Text nl; saved ] ∧
  final_stdout (run w flag_m (streaming [answer "Hi"; answer " there"])
                    [Line "hello"; Line "quit"])
  = [ Text ("DeepSeek> " +:+ nl);
      Text nl; Text (reasoning_finished +:+ nl); Text "Hi";
      Text nl; Text (reasoning_finished +:+ nl); Text " there";
      Text nl; saved ].
Proof. split; vm_compute; reflexivity. Qed.

(** Every fragment the loop handles is printed. *)
Lemma shown_fragment (reasoner : bool) (chunks : list chunk) (rc : string)
    (c : chunk) (x : string) :
  c ∈ chunks →
  match fragment (delta_reasoning_content c) with
  | Some r => x = r
  | None => fragment (delta_content c) = Some x
  end →
  Text x ∈ shown reasoner chunks rc.
Proof.
  intros Hc Hx. revert rc.
  induction chunks as [| c' chunks IH]; intros rc; [inversion Hc |].
  cbn [shown]. apply elem_of_cons in Hc as [<- | Hc].
  - destruct (fragment (delta_reasoning_content c)) as [r |].
    + subst x. apply elem_of_app. right. left.
    + rewrite Hx. apply elem_of_app. right. left.
  - specialize (IH Hc).
    destruct (fragment (delta_reasoning_content c')).
    + apply elem_of_app. right. right. apply IH.
    + destruct (fragment (delta_content c')); [| apply IH].
      apply elem_of_app. right. right. apply IH.
Qed.

(** C5, as amended. In a streamed turn whose stream ends normally the
    assistant message appended to the transcript is the concatenation, in
    stream order, of the answer fragments of the chunks that carry no
    reasoning fragment; every reasoning fragment is printed and none is part
    of the message. When no chunk carries both kinds of fragment, the message
    is the concatenation of all the answer fragments. *)
Theorem assistant_message_is_the_persisted_answer
    (svc : Service) (chunks : list chunk) (p : Process) (model temperature : value) :
  dict_lookup (VStr "model") (config (manager p)) = Some model →
  dict_lookup (VStr "temperature") (config (manager p)) = Some temperature →
  create_stream svc {| model := model; request_messages := messages (manager p);
                       stream := true; temperature := temperature |}
  = Replied (Delta <$> chunks) →
  ∃ q, streamed_turn svc p = (Return tt, q) ∧
       messages (manager q) = (messages (manager p) ++ [assistant (persisted chunks)])%list ∧
       (∀ c r, c ∈ chunks → fragment (delta_reasoning_content c) = Some r →
               Text r ∈ stdout q) ∧
       (∀ c a, c ∈ chunks → fragment (delta_reasoning_content c) = None →
               fragment (delta_content c) = Some a → Text a ∈ stdout q) ∧
       (Forall (fun c => fragment (delta_reasoning_content c) = None ∨
                         fragment (delta_content c) = None) chunks →
        persisted chunks = answers chunks).
Proof.
  intros Hmodel Htemp Hreply.
  rewrite (streamed_turn_eq svc chunks p model temperature Hmodel Htemp Hreply).
  eexists. split; [reflexivity |]. split; [reflexivity |].
  cbn [appended printed stdout].
  split; [| split].
  - intros c r Hc Hr. apply elem_of_app. right. right.
    apply elem_of_app. left. apply (shown_fragment _ _ _ c); [exact Hc |].
    rewrite Hr. reflexivity.
  - intros c a Hc Hr Ha. apply elem_of_app. right. right.
    apply elem_of_app. left. apply (shown_fragment _ _ _ c); [exact Hc |].
    rewrite Hr. exact Ha.
  - clear. induction 1 as [| c chunks Hc _ IH]; [reflexivity |].
    cbn [persisted answers]. rewrite IH.
    destruct Hc as [Hr | Ha].
    + rewrite Hr. f_equal. unfold fragment.
      destruct (delta_content c) as [s |]; [| reflexivity].
      destruct (String.eqb_spec s ""); [subst; reflexivity | reflexivity].
    + unfold fragment in Ha. destruct (delta_content c) as [s |].
      * destruct (String.eqb_spec s ""); [subst | discriminate].
        destruct (fragment (delta_reasoning_content c)); reflexivity.
      * destruct (fragment (delta_reasoning_content c)); reflexivity.
Qed.

Lemma assistant_message_is_the_persisted_answer_witness :
  let chunks := [ {| delta_reasoning_content := Some "Let me think"; delta_content := None |};
                  {| delta_reasoning_content := None; delta_content := Some "4" |};
                  {| delta_reasoning_content := None; delta_content := Some "2" |} ] in
  let svc := streaming (Delta <$> chunks) in
  let p := sample_process true "deepseek-reasoner" [user "question"] in
  dict_lookup (VStr "model") (config (manager p)) = Some (VStr "deepseek-reasoner") ∧
  dict_lookup (VStr "temperature") (config (manager p)) = Some (VFloat (7 # 10)) ∧
  ∃ q, streamed_turn svc p = (Return tt, q) ∧
       messages (manager q) = [user "question"; assistant "42"] ∧
       Text "Let me think" ∈ stdout q.
Proof.
  intros chunks svc p.
  split; [reflexivity | split; [reflexivity |]].
  destruct (assistant_message_is_the_persisted_answer svc chunks p
              (VStr "deepseek-reasoner") (VFloat (7 # 10)) eq_refl eq_refl eq_refl)
    as (q & Hq & Hm & Hr & _ & _).
  exists q. split; [exact Hq | split; [exact Hm |]].
  apply (Hr {| delta_reasoning_content := Some "Let me think"; delta_content := None |});
    [left | reflexivity].
Defined.

(** C5, as stated, fails on a chunk that carries both kinds of fragment:
    only the first branch of the loop runs, the answer fragment "b" is
    neither printed nor kept, and the assistant message is empty. *)
Lemma chunk_with_both_fragments_loses_its_answer :
  let both := {| delta_reasoning_content := Some "a"; delta_content := Some "b" |} in
  let p := sample_process true "deepseek-chat" [user "hello"] in
  let r := streamed_turn (streaming [Delta both]) p in
  answers [both] = "b" ∧
  r.1 = Return tt ∧
  messages (manager r.2) = [user "hello"; assistant ""] ∧
  messages (manager r.2) ≠ [user "hello"; assistant (answers [both])].
Proof. repeat split; [vm_compute; reflexivity .. | discriminate]. Qed.

(** ** Archiving the transcript *)

(** When the archive name is a file name, [save_messages] writes the whole
    transcript under it and empties the transcript in memory. *)
Lemma save_messages_archives (p : Process) :
  let name := archive_name (today (world p)) (first_message (messages (manager p))) in
  has_char "000"%char name = false →
  has_char "/"%char name = false →
  save_messages p = (Return tt, archived name p) ∧
  cwd (world (archived name p)) !! name = Some (messages (manager p)) ∧
  messages (manager (archived name p)) = [].
Proof.
  intros name Hnul Hsep. split; [| split; [apply lookup_insert_eq | reflexivity]].
  unfold save_messages, bind, get_world, get_manager, open_for_writing.
  fold name. rewrite Hnul, Hsep. reflexivity.
Qed.

(** An empty transcript is archived under the name with [None] in it. *)
Lemma save_messages_empty (p : Process) :
  messages (manager p) = [] →
  archive_name (today (world p)) (first_message (messages (manager p)))
  = today (world p) +:+ "_None.json".
Proof. intros ->. reflexivity. Qed.

Lemma save_messages_empty_sample :
  let p := sample_process true "deepseek-chat" [] in
  save_messages p = (Return tt, archived "2026-11-03_None.json" p) ∧
  cwd (world (archived "2026-11-03_None.json" p)) !! "2026-11-03_None.json" = Some [].
Proof. split; reflexivity. Qed.

(** When the first message has a [/] among its first 32 characters, opening
    the archive fails: nothing is written and the transcript stays. *)
Lemma save_messages_path_separator (p : Process) :
  let name := archive_name (today (world p)) (first_message (messages (manager p))) in
  has_char "000"%char name = false →
  has_char "/"%char name = true →
  save_messages p = (Raise FileNotFoundError, p).
Proof.
  intros name Hnul Hsep.
  unfold save_messages, bind, get_world, get_manager, open_for_writing.
  fold name. rewrite Hnul, Hsep. reflexivity.
Qed.

(** C6. The transcript starts with the message "what is 1/2?": the archive
    name has a [/] in it, opening it raises [FileNotFoundError], no archive
    is written and the transcript is not emptied. Started with [-n -m] on
    such a latest-transcript file, the process ends with status 1 and no
    archive. *)
Theorem archive_fails_on_a_path_separator :
  let ms := [user "what is 1/2?"; assistant "0.5"] in
  let p := sample_process true "deepseek-chat" ms in
  let w := sample_world true "deepseek-chat" (Some (Json ms)) in
  let r := run w flag_n_m (streaming [answer "Hi"]) [Line "hello"; Line "quit"] in
  archive_name (today (world p)) (first_message ms) = "2026-11-03_what is 1/2?.json" ∧
  save_messages p = (Raise FileNotFoundError, p) ∧
  exit_status r = 1 ∧
  final_stderr r = [Traceback FileNotFoundError] ∧
  cwd (final_world r) = ∅ ∧
  (messages <$> final_manager r) = Some ms ∧
  final_journal r = [ReadLatest; WriteLatest ms].
Proof. repeat split; vm_compute; reflexivity. Qed.

(** ** The scenarios of the specification, run with [-m] *)

(** Scenario A: an answer streamed in two chunks. *)
Example scenario_answer_only :
  let w := sample_world true "deepseek-chat" (Some (Json [])) in
  let r := run w flag_m (streaming [answer "Hi"; answer " there"])
               [Line "hello"; Line "quit"] in
  exit_status r = 0 ∧
  latest (final_world r) = Some (Json [user "hello"; assistant "Hi there"]) ∧
  final_journal r = [ReadLatest; WriteLatest [user "hello"; assistant "Hi there"]].
Proof. repeat split; vm_compute; reflexivity. Qed.

(** Scenario D: a signal in the middle of the stream. The user message is
    saved without a reply and the status is 0. *)
Example scenario_interrupt_mid_turn :
  let w := sample_world true "deepseek-chat" (Some (Json [])) in
  let r := run w flag_m (streaming [answer "H"; StreamSignal SIGINT; answer "i"])
               [Line "hello"; Line "quit"] in
  exit_status r = 0 ∧
  latest (final_world r) = Some (Json [user "hello"]) ∧
  final_journal r = [ReadLatest; WriteLatest [user "hello"]].
Proof. repeat split; vm_compute; reflexivity. Qed.

(** An error of the service in the middle of the stream: the same save,
    the traceback, status 1. *)
Example scenario_error_mid_turn :
  let w := sample_world true "deepseek-chat" (Some (Json [])) in
  let r := run w flag_m (streaming [answer "H"; StreamError APIError])
               [Line "hello"; Line "quit"] in
  exit_status r = 1 ∧
  final_stderr r = [Traceback APIError] ∧
  latest (final_world r) = Some (Json [user "hello"]) ∧
  final_journal r = [ReadLatest; WriteLatest [user "hello"]].
Proof. repeat split; vm_compute; reflexivity. Qed.

(** * More of the program *)

(** ** A turn and the chat loop *)

Section effect_rules.
Variable R : Process → Process → Prop.
Hypothesis R_refl : ∀ p, R p p.
Hypothesis R_trans : ∀ p q r, R p q → R q r → R p r.

Lemma effect_ret {A} (a : A) : effect R (ret a).
Proof. intros p. exists p. split; [apply R_refl | left; eexists; reflexivity]. Qed.

Lemma effect_raise {A} (e : exn) : effect R (@raise A e).
Proof. intros p. exists p. split; [apply R_refl | right; left; eexists; reflexivity]. Qed.

Lemma effect_handle_exit {A} : effect R (@handle_exit A).
Proof.
  intros p. exists p. split; [apply R_refl |]. right; right.
  unfold handle_exit, bind. rewrite save_data_eq. reflexivity.
Qed.

Lemma effect_bind {A B} (m : M A) (k : A → M B) :
  effect R m → (∀ a, effect R (k a)) → effect R (bind m k).
Proof.
  intros Hm Hk p. destruct (Hm p) as (q & Hpq & [[a Ha] | [[e He] | Hx]]).
  - destruct (Hk a q) as (r & Hqr & Hr). exists r.
    split; [exact (R_trans _ _ _ Hpq Hqr) |].
    unfold bind. rewrite Ha. exact Hr.
  - exists q. split; [exact Hpq |]. right; left. exists e.
    unfold bind. rewrite He. reflexivity.
  - exists q. split; [exact Hpq |]. right; right.
    unfold bind. rewrite Hx. reflexivity.
Qed.

Lemma effect_when (b : bool) (m : M unit) : effect R m → effect R (when b m).
Proof. intros Hm. destruct b; [exact Hm | apply effect_ret]. Qed.

Lemma effect_get_manager : effect R get_manager.
Proof. intros p. exists p. split; [apply R_refl | left; eexists; reflexivity]. Qed.

Lemma effect_get_world : effect R get_world.
Proof. intros p. exists p. split; [apply R_refl | left; eexists; reflexivity]. Qed.

Lemma effect_config_getitem (k : string) : effect R (config_getitem k).
Proof.
  intros p. exists p. split; [apply R_refl |].
  unfold config_getitem, bind, get_manager.
  destruct (dict_lookup (VStr k) (config (manager p))).
  - left. eexists. reflexivity.
  - right; left. eexists. reflexivity.
Qed.

Lemma effect_await {A} (r : reply A) : effect R (await r).
Proof.
  destruct r; [apply effect_ret | apply effect_raise | apply effect_handle_exit].
Qed.
End effect_rules.

Lemma effect_weaken (R1 R2 : Process → Process → Prop) {A} (m : M A) :
  (∀ p q, R1 p q → R2 p q) → effect R1 m → effect R2 m.
Proof.
  intros H Hm p. destruct (Hm p) as (q & Hq & Ho). exists q. split; [apply H, Hq | exact Ho].
Qed.

Lemma quiet_refl (p : Process) : quiet p p.
Proof. split; reflexivity. Qed.

Lemma quiet_trans (p q r : Process) : quiet p q → quiet q r → quiet p r.
Proof. intros [] []. split; congruence. Qed.

Lemma quiet_write (item : out_item) : effect quiet (write item).
Proof.
  intros p. eexists. split; [| left; exists tt; reflexivity]. split; reflexivity.
Qed.

Lemma quiet_printed (items : list out_item) (p : Process) : quiet p (printed items p).
Proof. split; reflexivity. Qed.

(** The loop over the stream only prints, however it ends. *)
Lemma quiet_consume (items : list stream_item) (reasoning_content content : string) :
  effect quiet (consume items reasoning_content content).
Proof.
  pose proof quiet_refl as Hr. pose proof quiet_trans as Ht.
  revert reasoning_content content.
  induction items as [| item items IH]; intros rc c; cbn [consume].
  - apply effect_ret, Hr.
  - destruct item as [ch | sg | e];
      [| apply effect_handle_exit, Hr | apply effect_raise, Hr].
    destruct (fragment (delta_reasoning_content ch)) as [r |].
    + apply effect_bind; [exact Ht | | intros _].
      { apply effect_when; [exact Hr | apply quiet_write]. }
      apply effect_bind; [exact Ht | apply quiet_write | intros _; apply IH].
    + destruct (fragment (delta_content ch)) as [a |]; [| apply IH].
      apply effect_bind; [exact Ht | | intros marker].
      { destruct (String.eqb rc ""); [| apply effect_ret, Hr].
        apply effect_bind; [exact Ht | apply effect_config_getitem, Hr | intros model].
        apply effect_ret, Hr. }
      apply effect_bind; [exact Ht | | intros _].
      { apply effect_when; [exact Hr |].
        apply effect_bind; [exact Ht | apply quiet_write | intros _; apply quiet_write]. }
      apply effect_bind; [exact Ht | apply quiet_write | intros _; apply IH].
Qed.

Lemma bind_config_getitem_missing {A} (key : string) (k : value → M A) (p : Process) :
  dict_lookup (VStr key) (config (manager p)) = None →
  bind (config_getitem key) k p = (Raise KeyError, p).
Proof.
  intros H. unfold config_getitem. rewrite bind_bind. unfold bind at 1, get_manager.
  rewrite H. reflexivity.
Qed.

(** A turn appends the assistant message when it completes, and only then:
    when the request or the stream fails, or a signal arrives, the manager is
    as it was when the turn began. Nothing but standard output changes on
    the way. *)
Lemma streamed_turn_outcome (svc : Service) (p : Process) :
  ∃ q, quiet p q ∧
    ((∃ c, streamed_turn svc p = (Return tt, appended (assistant c) q)) ∨
     (∃ e, streamed_turn svc p = (Raise e, q)) ∨
     streamed_turn svc p = (SystemExit (Status 0), saved_state q)).
Proof.
  unfold streamed_turn.
  destruct (dict_lookup (VStr "model") (config (manager p))) as [model |] eqn:Hm;
    [| exists p; split; [apply quiet_refl |]; right; left; exists KeyError;
       apply bind_config_getitem_missing, Hm].
  rewrite (bind_config_getitem "model" model) by exact Hm.
  rewrite bind_get_manager.
  destruct (dict_lookup (VStr "temperature") (config (manager p))) as [temp |] eqn:Ht;
    [| exists p; split; [apply quiet_refl |]; right; left; exists KeyError;
       apply bind_config_getitem_missing, Ht].
  rewrite (bind_config_getitem "temperature" temp) by exact Ht.
  destruct (create_stream svc _) as [items | e | sg]; cbn [await].
  - rewrite bind_ret. unfold print. rewrite bind_write.
    destruct (quiet_consume items "" "" (printed [Text ("DeepSeek> " +:+ nl)] p))
      as (q & Hq & [[c Hc] | [[e He] | Hx]]).
    + exists (printed [Text ("" +:+ nl)] q). split.
      * eapply quiet_trans; [apply quiet_printed |].
        eapply quiet_trans; [exact Hq | apply quiet_printed].
      * left. exists c. unfold bind at 1. rewrite Hc. reflexivity.
    + exists q. split; [eapply quiet_trans; [apply quiet_printed | exact Hq] |].
      right; left. exists e. unfold bind at 1. rewrite He. reflexivity.
    + exists q. split; [eapply quiet_trans; [apply quiet_printed | exact Hq] |].
      right; right. unfold bind at 1. rewrite Hx. reflexivity.
  - exists p. split; [apply quiet_refl |]. right; left. exists e. reflexivity.
  - exists p. split; [apply quiet_refl |]. right; right.
    unfold bind at 1, handle_exit, bind. rewrite save_data_eq. reflexivity.
Qed.

Lemma plain_turn_outcome (svc : Service) (p : Process) :
  ∃ q, quiet p q ∧
    ((∃ c, plain_turn svc p = (Return tt, appended (assistant c) q)) ∨
     (∃ e, plain_turn svc p = (Raise e, q)) ∨
     plain_turn svc p = (SystemExit (Status 0), saved_state q)).
Proof.
  unfold plain_turn.
  destruct (dict_lookup (VStr "model") (config (manager p))) as [model |] eqn:Hm;
    [| exists p; split; [apply quiet_refl |]; right; left; exists KeyError;
       apply bind_config_getitem_missing, Hm].
  rewrite (bind_config_getitem "model" model) by exact Hm.
  rewrite bind_get_manager.
  destruct (dict_lookup (VStr "temperature") (config (manager p))) as [temp |] eqn:Ht;
    [| exists p; split; [apply quiet_refl |]; right; left; exists KeyError;
       apply bind_config_getitem_missing, Ht].
  rewrite (bind_config_getitem "temperature" temp) by exact Ht.
  destruct (create svc _) as [c | e | sg]; cbn [await].
  - exists (printed [Text (("DeepSeek> " +:+ c) +:+ nl)] p).
    split; [apply quiet_printed |]. left. exists c. reflexivity.
  - exists p. split; [apply quiet_refl |]. right; left. exists e. reflexivity.
  - exists p. split; [apply quiet_refl |]. right; right.
    unfold bind at 1, handle_exit, bind. rewrite save_data_eq. reflexivity.
Qed.

Lemma bind_append {A} (msg : Message) (k : unit → M A) (p : Process) :
  bind (append msg) k p = k tt (appended msg p).
Proof. reflexivity. Qed.

Lemma talks_nil (p : Process) : talks p p [].
Proof. split; try reflexivity. symmetry. apply app_nil_r. Qed.

Lemma talks_user (message : string) (p q : Process) :
  quiet (appended (user message) p) q → talks p q [user message].
Proof.
  intros [Hm Hw He Hj]. split.
  - rewrite Hm. reflexivity.
  - rewrite Hm. reflexivity.
  - rewrite Hm. reflexivity.
  - exact Hw.
  - exact He.
  - exact Hj.
Qed.

Lemma talks_turn (message c : string) (p q q' : Process) (ms : list Message) :
  quiet (appended (user message) p) q →
  talks (appended (assistant c) q) q' ms →
  talks p q' (user message :: assistant c :: ms).
Proof.
  intros [Hm Hw He Hj] [Tm Tc Ts Tw Te Tj].
  cbn [appended manager world stderr journal set_messages messages config _saved] in *.
  split.
  - rewrite Tm, Hm. cbn [set_messages messages]. rewrite <- !app_assoc. reflexivity.
  - rewrite Tc, Hm. reflexivity.
  - rewrite Ts, Hm. reflexivity.
  - rewrite Tw. exact Hw.
  - rewrite Te. exact He.
  - rewrite Tj. exact Hj.
Qed.

(** However the chat loop ends, what it did to the process is a dialogue
    added to the transcript and text on standard output. *)
Lemma chat_loop_outcome (svc : Service) (script : list prompted) (p : Process) :
  ∃ q ms, talks p q ms ∧ dialogue ms = true ∧
    ((chat_loop svc script p = (Return tt, q) ∧ Nat.even (length ms) = true) ∨
     (∃ e, chat_loop svc script p = (Raise e, q)) ∨
     chat_loop svc script p = (SystemExit (Status 0), saved_state q)).
Proof.
  revert p. induction script as [| [message | sg | e] script IH]; intros p;
    cbn [chat_loop].
  - exists p, []. split; [apply talks_nil | split; [reflexivity |]].
    right; left. eexists. reflexivity.
  - destruct (is_quit message).
    { exists p, []. split; [apply talks_nil | split; [reflexivity |]]. left. auto. }
    rewrite bind_append. fold (user message).
    set (p1 := appended (user message) p).
    destruct (dict_lookup (VStr "stream") (config (manager p1))) as [s |] eqn:Hs.
    2:{ exists p1, [user message].
        split; [apply talks_user, quiet_refl | split; [reflexivity |]].
        right; left. exists KeyError. apply bind_config_getitem_missing, Hs. }
    rewrite (bind_config_getitem "stream" s) by exact Hs.
    assert (Hturn : ∃ q, quiet p1 q ∧
      ((∃ c, (if truthy s then streamed_turn svc else plain_turn svc) p1
             = (Return tt, appended (assistant c) q)) ∨
       (∃ e, (if truthy s then streamed_turn svc else plain_turn svc) p1 = (Raise e, q)) ∨
       (if truthy s then streamed_turn svc else plain_turn svc) p1
       = (SystemExit (Status 0), saved_state q))).
    { destruct (truthy s); [apply streamed_turn_outcome | apply plain_turn_outcome]. }
    destruct Hturn as (q & Hq & [[c Hc] | [[e He] | Hx]]).
    + destruct (IH (appended (assistant c) q)) as (q' & ms & Ht & Hd & Ho).
      exists q', (user message :: assistant c :: ms).
      split; [exact (talks_turn _ _ _ _ _ _ Hq Ht) |].
      split; [exact Hd |].
      assert (Heq : bind (if truthy s then streamed_turn svc else plain_turn svc)
                         (fun _ => chat_loop svc script) p1
                    = chat_loop svc script (appended (assistant c) q)).
      { unfold bind. rewrite Hc. reflexivity. }
      rewrite Heq. exact Ho.
    + exists q, [user message]. split; [apply talks_user, Hq | split; [reflexivity |]].
      right; left. exists e. unfold bind at 1. rewrite He. reflexivity.
    + exists q, [user message]. split; [apply talks_user, Hq | split; [reflexivity |]].
      right; right. unfold bind at 1. rewrite Hx. reflexivity.
  - exists p, []. split; [apply talks_nil | split; [reflexivity |]].
    destruct sg; [right; left; eexists; reflexivity |].
    right; right. apply handle_exit_eq.
  - exists p, []. split; [apply talks_nil | split; [reflexivity |]].
    right; left. eexists. reflexivity.
Qed.

Lemma messages_saved_state (p : Process) :
  messages (manager (saved_state p)) = messages (manager p).
Proof. unfold saved_state. destruct (should_save p); reflexivity. Qed.

Lemma config_saved_state (p : Process) :
  config (manager (saved_state p)) = config (manager p).
Proof. unfold saved_state. destruct (should_save p); reflexivity. Qed.

(** X1. Whatever the service and the user do, the chat loop only adds to the
    transcript, and what it adds is a dialogue: user and assistant messages
    in turn, the user first, with at most one user message without a reply
    at the end; when the loop ends on a quit word every user message has its
    reply. *)
Theorem chat_loop_appends_a_dialogue (svc : Service) (script : list prompted) (p : Process) :
  let r := chat_loop svc script p in
  ∃ ms, messages (manager r.2) = (messages (manager p) ++ ms)%list ∧
        dialogue ms = true ∧
        (r.1 = Return tt → Nat.even (length ms) = true).
Proof.
  intros r. subst r.
  destruct (chat_loop_outcome svc script p)
    as (q & ms & Ht & Hd & [[Ho Hev] | [[e Ho] | Ho]]);
    exists ms; rewrite Ho; cbn [fst snd].
  - split; [apply Ht | split; [exact Hd | intros _; exact Hev]].
  - split; [apply Ht | split; [exact Hd | discriminate]].
  - rewrite messages_saved_state.
    split; [apply Ht | split; [exact Hd | discriminate]].
Qed.

(** X2. The chat loop itself never touches a file, the configuration or the
    saved flag: when it returns or raises, the world, the effects on the file
    system, standard error, the configuration and the flag are as before;
    the only other way out is the signal handler, run from such a process. *)
Theorem chat_loop_leaves_the_files_to_the_exit
    (svc : Service) (script : list prompted) (p : Process) :
  let r := chat_loop svc script p in
  ∃ q, world q = world p ∧ journal q = journal p ∧ stderr q = stderr p ∧
       config (manager q) = config (manager p) ∧
       _saved (manager q) = _saved (manager p) ∧
       ((r.1 ≠ SystemExit (Status 0) ∧ r.2 = q) ∨
        r = (SystemExit (Status 0), (save_data q).2)).
Proof.
  intros r. subst r.
  destruct (chat_loop_outcome svc script p)
    as (q & ms & [_ Hc Hs Hw He Hj] & _ & [[Ho _] | [[e Ho] | Ho]]);
    exists q; rewrite Ho; cbn [fst snd]; repeat (split; [assumption |]).
  - left. split; [discriminate | reflexivity].
  - left. split; [discriminate | reflexivity].
  - right. rewrite save_data_eq. reflexivity.
Qed.

(** X3. A turn, streamed or not, adds the assistant message to the
    transcript exactly when it completes. When the request or the stream
    fails, or a signal arrives, nothing of the answer received so far is
    kept: the manager is as it was when the turn began. *)
Theorem turn_keeps_the_answer_only_when_complete
    (svc : Service) (streamed : bool) (p : Process) :
  let r := (if streamed then streamed_turn svc else plain_turn svc) p in
  (∃ c, r.1 = Return tt ∧
        messages (manager r.2) = (messages (manager p) ++ [assistant c])%list ∧
        config (manager r.2) = config (manager p) ∧
        world r.2 = world p ∧ journal r.2 = journal p) ∨
  ((∃ e, r.1 = Raise e) ∧ manager r.2 = manager p ∧
   world r.2 = world p ∧ journal r.2 = journal p) ∨
  (∃ q, r = (SystemExit (Status 0), (save_data q).2) ∧ manager q = manager p ∧
        world q = world p ∧ journal q = journal p).
Proof.
  intros r. subst r.
  assert (H : ∃ q, quiet p q ∧
    ((∃ c, (if streamed then streamed_turn svc else plain_turn svc) p
           = (Return tt, appended (assistant c) q)) ∨
     (∃ e, (if streamed then streamed_turn svc else plain_turn svc) p = (Raise e, q)) ∨
     (if streamed then streamed_turn svc else plain_turn svc) p
     = (SystemExit (Status 0), saved_state q))).
  { destruct streamed; [apply streamed_turn_outcome | apply plain_turn_outcome]. }
  destruct H as (q & [Hm Hw _ Hj] & [[c Ho] | [[e Ho] | Ho]]); rewrite Ho; cbn [fst snd].
  - left. exists c. cbn [appended manager world journal set_messages messages config].
    rewrite Hm. auto.
  - right; left. eauto.
  - right; right. exists q. rewrite save_data_eq. auto.
Qed.

(** *** The status *)

Lemma show_status_eq (p : Process) :
  show_status p
  = (Return tt,
     printed (status_lines (config (manager p))
              ++ [Text (("消息存储路径: " +:+ messages_path (world p)) +:+ nl)]) p).
Proof.
  unfold show_status. rewrite bind_get_manager.
  change (bind get_world ?k p) with (k (world p) p). cbv beta.
  assert (Heach : ∀ (items : dict) (q : Process) (k : unit → M unit),
    bind ((fix each (items : dict) : M unit :=
             match items with
             | [] => ret tt
             | (key, value) :: items' =>
                 write (Str key) ;;; write (Text ": ") ;;; write (Str value) ;;;
                 write (Text nl) ;;; each items'
             end) items) k q
    = k tt (printed (status_lines items) q)).
  { induction items as [| [key value] items IH]; intros q k.
    - rewrite bind_ret. cbn [status_lines flat_map]. rewrite printed_nil. reflexivity.
    - cbn [status_lines flat_map].
      repeat (rewrite bind_bind, bind_write; cbv beta).
      rewrite IH, !printed_printed. reflexivity. }
  rewrite Heach. unfold print, write, printed. cbn. rewrite <- app_assoc. reflexivity.
Qed.

(** ** Whole runs *)

Lemma dispatch_eq (args : Namespace.t) (svc : Service) (script : list prompted) (p : Process) :
  truthy (Namespace.key args) = false →
  dispatch args svc script p
  = bind (when (truthy (Namespace.new args)) save_messages)
         (fun _ => after_archive args svc script) p.
Proof. intros H. unfold dispatch, after_archive. rewrite H. reflexivity. Qed.

Lemma save_messages_eq (p : Process) :
  let name := archive_name (today (world p)) (first_message (messages (manager p))) in
  save_messages p
  = if has_char "000"%char name then (Raise ValueError, p)
    else if has_char "/"%char name then (Raise FileNotFoundError, p)
    else (Return tt, archived name p).
Proof.
  intros name.
  unfold save_messages, bind, get_world, get_manager, open_for_writing. fold name.
  destruct (has_char "000"%char name); [reflexivity |].
  destruct (has_char "/"%char name); reflexivity.
Qed.

Lemma talks_quiet (p q : Process) : quiet p q → talks p q [].
Proof.
  intros [Hm Hw He Hj]. split; try assumption; rewrite Hm; try reflexivity.
  symmetry. apply app_nil_r.
Qed.

Lemma bind_new_client {A} (k u : value) (h : unit → M A) (p : Process) :
  bind (new_client k u) h p =
  match client_error (world p) k u with
  | Some e => (Raise e, p)
  | None => h tt p
  end.
Proof.
  unfold new_client, bind, get_world.
  destruct (client_error (world p) k u); reflexivity.
Qed.

Lemma after_archive_outcome (args : Namespace.t) (svc : Service) (script : list prompted)
    (p : Process) :
  ∃ q ms, talks p q ms ∧ dialogue ms = true ∧
    ((after_archive args svc script p = (Return tt, q)) ∨
     (∃ e, after_archive args svc script p = (Raise e, q)) ∨
     after_archive args svc script p = (SystemExit (Status 0), saved_state q)).
Proof.
  unfold after_archive. destruct (truthy (Namespace.status args)).
  - rewrite show_status_eq. eexists _, [].
    split; [apply talks_quiet, quiet_printed | split; [reflexivity | left; reflexivity]].
  - destruct (dict_lookup (VStr "api_key") (config (manager p))) as [k |] eqn:Hk.
    2:{ exists p, []. split; [apply talks_nil | split; [reflexivity |]].
        right; left. exists KeyError. apply bind_config_getitem_missing, Hk. }
    rewrite (bind_config_getitem "api_key" k) by exact Hk.
    destruct (dict_lookup (VStr "base_url") (config (manager p))) as [u |] eqn:Hu.
    2:{ exists p, []. split; [apply talks_nil | split; [reflexivity |]].
        right; left. exists KeyError. apply bind_config_getitem_missing, Hu. }
    rewrite (bind_config_getitem "base_url" u) by exact Hu.
    rewrite bind_new_client.
    destruct (client_error (world p) k u) as [e |].
    { exists p, []. split; [apply talks_nil | split; [reflexivity |]].
      right; left. exists e. reflexivity. }
    destruct (chat_loop_outcome svc script p) as (q & ms & Ht & Hd & [[Ho _] | [Ho | Ho]]);
      exists q, ms; auto.
Qed.




Lemma parse_args_no_key (argv : Argv) :
  opt_k argv = None → truthy (Namespace.key (parse_args argv)) = false.
Proof. intros H. unfold parse_args. cbn [Namespace.key]. rewrite H. reflexivity. Qed.


Lemma witness_init (memory : bool) (model : string) (latest : option json_text) :
  ConfigManager_init (sample_world memory model latest)
  = Return {| messages := []; config := sample_config memory model; _saved := false |}.
Proof. reflexivity. Qed.





Lemma execute_Flags (w : World) (argv : Argv) (svc : Service) (script : list prompted) :
  execute w (Flags argv) svc script = run w argv svc script.
Proof. reflexivity. Qed.


(** X7. Started with memory on (the [-m] flag) on a latest-transcript file
    that is not valid JSON: the load raises after the file was opened,
    nothing being written yet; the error reaches the exception hook, and it
    is the hook that overwrites the file with the empty transcript, reports
    the error and exits with status 1; the finalizer adds nothing. What the
    file held is lost. *)
Theorem unreadable_latest_file_is_overwritten
    (w : World) (argv : Argv) (svc : Service) (script : list prompted)
    (mgr : ConfigManager) :
  ConfigManager_init w = Return mgr →
  opt_m argv = true →
  latest w = Some NotJson →
  let r := run w argv svc script in
  let p1 := opened (with_config (apply_flags (parse_args argv) (config mgr))
                      (start mgr w)) in
  let p2 := (exception_hook JSONDecodeError p1).2 in
  exit_status r = 1 ∧
  final_stderr r = [Traceback JSONDecodeError] ∧
  final_journal r = [ReadLatest; WriteLatest []] ∧
  latest (final_world r) = Some (Json []) ∧
  main (parse_args argv) svc script (start mgr w) = (Raise JSONDecodeError, p1) ∧
  journal p1 = [ReadLatest] ∧
  latest (world p1) = Some NotJson ∧
  exception_hook JSONDecodeError p1 = (SystemExit (Status 1), p2) ∧
  journal p2 = [ReadLatest; WriteLatest []] ∧
  latest (world p2) = Some (Json []) ∧
  stderr p2 = [Traceback JSONDecodeError] ∧
  r = finish 1 p2.
Proof.
  intros Hinit Hm Hl r p1 p2. subst r.
  destruct (ConfigManager_init_fresh _ _ Hinit) as (Hms & Hs & _).
  assert (Hmain : main (parse_args argv) svc script (start mgr w)
                  = (Raise JSONDecodeError, p1)).
  { rewrite main_eq.
    change (config (manager (start mgr w))) with (config mgr).
    rewrite load_transcript_then, (start_after_flags_memory argv mgr w), Hm.
    cbn [with_config world start]. rewrite Hl. reflexivity. }
  assert (Hhook : exception_hook JSONDecodeError p1
                  = (SystemExit (Status 1), traced JSONDecodeError (saved_state p1))).
  { apply exception_hook_eq. }
  assert (Hp2 : p2 = traced JSONDecodeError (saved_state p1)).
  { unfold p2. rewrite Hhook. reflexivity. }
  assert (Hon : should_save p1 = true).
  { etransitivity; [exact (start_after_flags_should_save argv mgr w Hs) | exact Hm]. }
  rewrite (run_eq _ _ _ _ _ Hinit), Hmain, terminate_raise, Hp2.
  unfold saved_state. rewrite Hon. cbn. rewrite Hms, Hl.
  repeat (split; [reflexivity |]).
  split; [| repeat (split; [reflexivity |]); reflexivity].
  rewrite Hhook. unfold saved_state. rewrite Hon. cbn. rewrite Hms. reflexivity.
Qed.

Lemma unreadable_latest_file_is_overwritten_witness :
  let w := sample_world true "deepseek-chat" (Some NotJson) in
  let r := run w flag_m (streaming [answer "Hi"]) [Line "hello"; Line "quit"] in
  opt_m flag_m = true ∧ latest w = Some NotJson ∧
  exit_status r = 1 ∧
  final_journal r = [ReadLatest; WriteLatest []] ∧
  latest (final_world r) = Some (Json []).
Proof.
  intros w r. split; [reflexivity | split; [reflexivity |]].
  destruct (unreadable_latest_file_is_overwritten w flag_m
              (streaming [answer "Hi"]) [Line "hello"; Line "quit"] _
              (witness_init true "deepseek-chat" _) eq_refl eq_refl)
    as (H1 & _ & H2 & H3 & _).
  split; [exact H1 | split; [exact H2 | exact H3]].
Defined.

(** *** The status flag *)



(** *** The flags *)

(** X9. The flags override exactly their own keys: [-b] the base URL, [-r]
    the model, [-d] the stream key, and the memory key is set to whether
    [-m] was given. The API key and the temperature stay as they were loaded,
    whatever [-t] says. *)
Theorem flags_override_only_their_keys (argv : Argv) (d : dict) :
  let d' := apply_flags (parse_args argv) d in
  dict_lookup (VStr "api_key") d' = dict_lookup (VStr "api_key") d ∧
  dict_lookup (VStr "temperature") d' = dict_lookup (VStr "temperature") d ∧
  dict_lookup (VStr "base_url") d'
  = (if opt_b argv then Some (VStr "https://beta.api.deepseek.com/beta")
     else dict_lookup (VStr "base_url") d) ∧
  dict_lookup (VStr "model") d'
  = (if opt_r argv then Some (VStr "deepseek-reasoner")
     else dict_lookup (VStr "model") d) ∧
  dict_lookup (VStr "stream") d'
  = (if opt_d argv then Some (VBool false) else dict_lookup (VStr "stream") d) ∧
  dict_lookup (VStr "memory") d' = Some (VBool (opt_m argv)).
Proof.
  intros d'. subst d'. unfold apply_flags, parse_args, store_true.
  cbn [Namespace.beta Namespace.reasoner Namespace.memory Namespace.no_stream
       truthy is_not_None].
  destruct (opt_b argv), (opt_r argv), (opt_d argv);
    repeat split;
    repeat first [ rewrite dict_lookup_set_eq
                 | rewrite dict_lookup_set_ne by discriminate ];
    reflexivity.
Qed.

(** *** Which files a run may write *)

Lemma files_kept_refl (args : Namespace.t) (p : Process) : files_kept args p p.
Proof. split; reflexivity. Qed.

Lemma files_kept_trans (args : Namespace.t) (p q r : Process) :
  files_kept args p q → files_kept args q r → files_kept args p r.
Proof. intros [H1 H2] [H3 H4]. split; intros H; [rewrite H3, H1 | rewrite H4, H2]; auto. Qed.

Lemma files_kept_world (args : Namespace.t) (p q : Process) :
  world q = world p → files_kept args p q.
Proof. intros H. split; intros _; rewrite H; reflexivity. Qed.

Lemma files_kept_dispatch (args : Namespace.t) (svc : Service) (script : list prompted) :
  effect (files_kept args) (dispatch args svc script).
Proof.
  intros p. destruct (truthy (Namespace.key args)) eqn:Hk.
  - exists (written args p). split.
    + split; [congruence | reflexivity].
    + left. exists tt. unfold dispatch. rewrite Hk. apply write_new_config_eq.
  - rewrite dispatch_eq by exact Hk.
    assert (Hfirst : ∃ p', files_kept args p p' ∧
      (when (truthy (Namespace.new args)) save_messages p = (Return tt, p') ∨
       ∃ e, when (truthy (Namespace.new args)) save_messages p = (Raise e, p'))).
    { destruct (truthy (Namespace.new args)) eqn:Hn; cbn [when].
      - pose proof (save_messages_eq p) as H. cbn zeta in H. rewrite H.
        destruct (has_char "000"%char _);
          [exists p; split; [apply files_kept_refl | right; eauto] |].
        destruct (has_char "/"%char _);
          [exists p; split; [apply files_kept_refl | right; eauto] |].
        eexists. split; [| left; reflexivity].
        split; [reflexivity | congruence].
      - exists p. split; [apply files_kept_refl | left; reflexivity]. }
    destruct Hfirst as (p' & Hp' & [H | [e H]]).
    + destruct (after_archive_outcome args svc script p')
        as (q & ms & Ht & _ & Ho).
      exists q. split.
      * eapply files_kept_trans; [exact Hp' |]. apply files_kept_world, Ht.
      * unfold bind. rewrite H.
        destruct Ho as [Ho | [Ho | Ho]]; [left; eauto | right; left; exact Ho | right; right; exact Ho].
    + exists p'. split; [exact Hp' |]. right; left. exists e.
      unfold bind. rewrite H. reflexivity.
Qed.

Lemma files_saved_state (p : Process) :
  settings (world (saved_state p)) = settings (world p) ∧
  cwd (world (saved_state p)) = cwd (world p).
Proof. unfold saved_state. destruct (should_save p); split; reflexivity. Qed.

(** X10. Only [-k] writes the settings file and only [-n] writes an archive
    file: in a run without [-k] the settings file is at the end what it was
    at the start (the overrides of the flags last for the run only), and in a
    run without [-n] so are the archive files, however the run ends. *)
Theorem only_k_writes_settings_only_n_archives
    (w : World) (argv : Argv) (svc : Service) (script : list prompted) :
  let r := run w argv svc script in
  (opt_k argv = None → settings (final_world r) = settings w) ∧
  (opt_n argv = false → cwd (final_world r) = cwd w).
Proof.
  intros r. subst r.
  destruct (ConfigManager_init w) as [mgr | arg | e] eqn:Hinit;
    [| unfold run; rewrite Hinit; auto ..].
  rewrite (run_eq _ _ _ _ _ Hinit).
  assert (Hmain : ∃ q, files_kept (parse_args argv) (start mgr w) q ∧
    ((∃ a, main (parse_args argv) svc script (start mgr w) = (Return a, q)) ∨
     (∃ e, main (parse_args argv) svc script (start mgr w) = (Raise e, q)) ∨
     main (parse_args argv) svc script (start mgr w)
     = (SystemExit (Status 0), saved_state q))).
  { rewrite main_eq, load_transcript_then.
    set (p1 := with_config _ (start mgr w)).
    assert (Hd : ∀ p2, world p2 = w →
      ∃ q, files_kept (parse_args argv) (start mgr w) q ∧
        ((∃ a, dispatch (parse_args argv) svc script p2 = (Return a, q)) ∨
         (∃ e, dispatch (parse_args argv) svc script p2 = (Raise e, q)) ∨
         dispatch (parse_args argv) svc script p2 = (SystemExit (Status 0), saved_state q))).
    { intros p2 H2.
      destruct (files_kept_dispatch (parse_args argv) svc script p2) as (q & Hq & Ho).
      exists q. split; [| exact Ho].
      eapply files_kept_trans; [| exact Hq]. apply files_kept_world. exact H2. }
    destruct (truthy (dict_get "memory" (VBool true) (config (manager p1))));
      [| apply Hd; reflexivity].
    destruct (latest (world p1)) as [[| ms] |].
    - exists (opened p1). split; [apply files_kept_world; reflexivity |].
      right; left. eauto.
    - apply Hd. reflexivity.
    - exists p1. split; [apply files_kept_world; reflexivity |]. right; left. eauto. }
  destruct Hmain as (q & [Hset Hcwd] & Ho).
  assert (Hk : opt_k argv = None → settings (world (saved_state q)) = settings w).
  { intros H. rewrite (proj1 (files_saved_state q)).
    apply Hset, parse_args_no_key, H. }
  assert (Hn : opt_n argv = false → cwd (world (saved_state q)) = cwd w).
  { intros H. rewrite (proj2 (files_saved_state q)).
    apply Hcwd. unfold parse_args. cbn [Namespace.new]. rewrite H. reflexivity. }
  destruct Ho as [[a Ho] | [[e Ho] | Ho]]; rewrite Ho.
  - rewrite terminate_return. auto.
  - rewrite terminate_raise. auto.
  - rewrite terminate_signal. auto.
Qed.

(** *** [-k] on a valid settings file *)

Lemma key_flag_writes_new_settings_witness :
  let w := sample_world true "deepseek-reasoner" (Some (Json [user "earlier"])) in
  let r := run w (flag_k "mykey") (streaming [answer "Hi"]) [Line "hello"] in
  opt_k (flag_k "mykey") = Some "mykey" ∧ "mykey" ≠ "" ∧ opt_m (flag_k "mykey") = false ∧
  exit_status r = 0 ∧
  latest (final_world r) = Some (Json [user "earlier"]) ∧
  _safe_load_config (final_world r)
  = Ok (VDict
    [ (VStr "api_key", VStr "mykey");
      (VStr "base_url", VStr "https://api.deepseek.com");
      (VStr "model", VStr "deepseek-chat");
      (VStr "temperature", VFloat (7 # 10));
      (VStr "memory", VBool false) ]).
Proof.
  intros w r.
  split; [reflexivity | split; [discriminate | split; [reflexivity |]]].
  destruct (key_flag_writes_new_settings w (flag_k "mykey") (streaming [answer "Hi"])
              [Line "hello"] _ "mykey" (witness_init true "deepseek-reasoner" _)
              eq_refl ltac:(discriminate) eq_refl)
    as (H1 & _ & _ & H2 & _ & H3).
  split; [exact H1 | split; [exact H2 | exact H3]].
Defined.

(** *** Archiving *)

Lemma save_messages_archives_witness :
  let p := sample_process true "deepseek-chat" [user "hello"; assistant "Hi there"] in
  has_char "000"%char "2026-11-03_hello.json" = false ∧
  has_char "/"%char "2026-11-03_hello.json" = false ∧
  save_messages p = (Return tt, archived "2026-11-03_hello.json" p) ∧
  cwd (world (archived "2026-11-03_hello.json" p)) !! "2026-11-03_hello.json"
  = Some [user "hello"; assistant "Hi there"] ∧
  messages (manager (archived "2026-11-03_hello.json" p)) = [].
Proof.
  intros p. split; [reflexivity | split; [reflexivity |]].
  exact (save_messages_archives p eq_refl eq_refl).
Defined.

Lemma has_char_app (c : ascii) (s t : string) :
  has_char c (s +:+ t) = has_char c s || has_char c t.
Proof.
  unfold has_char. induction s as [| a s IH]; [reflexivity |].
  change (list_ascii_of_string (String a s +:+ t))
    with (a :: list_ascii_of_string (s +:+ t)).
  cbn [list_ascii_of_string existsb]. rewrite IH. apply orb_assoc.
Qed.

(** X13. An empty transcript is archived, not refused: when the date has no
    [/] and no NUL in it, [save_messages] writes the empty transcript to the
    file named by the date followed by [_None.json]. *)
Theorem empty_transcript_is_archived_under_None (p : Process) :
  messages (manager p) = [] →
  has_char "000"%char (today (world p)) = false →
  has_char "/"%char (today (world p)) = false →
  let name := today (world p) +:+ "_None.json" in
  save_messages p = (Return tt, archived name p) ∧
  cwd (world (archived name p)) !! name = Some [] ∧
  journal (archived name p) = (journal p ++ [WriteArchive name []])%list.
Proof.
  intros Hms Hnul Hsep name.
  pose proof (save_messages_eq p) as H. cbn zeta in H.
  rewrite Hms in H. cbn [first_message] in H.
  change (archive_name (today (world p)) None) with name in H.
  assert (Hn : ∀ c, has_char c (today (world p)) = false →
                    has_char c "_None.json" = false → has_char c name = false).
  { intros c H1 H2. subst name. rewrite has_char_app, H1, H2. reflexivity. }
  rewrite (Hn _ Hnul eq_refl), (Hn _ Hsep eq_refl) in H.
  split; [exact H |]. unfold archived. cbn [world set_cwd cwd journal].
  rewrite Hms. split; [apply lookup_insert_eq | reflexivity].
Qed.

Lemma empty_transcript_is_archived_under_None_witness :
  let p := sample_process true "deepseek-chat" [] in
  messages (manager p) = [] ∧
  has_char "000"%char (today (world p)) = false ∧
  has_char "/"%char (today (world p)) = false ∧
  save_messages p = (Return tt, archived "2026-11-03_None.json" p) ∧
  cwd (world (archived "2026-11-03_None.json" p)) !! "2026-11-03_None.json" = Some [].
Proof.
  intros p. split; [reflexivity | split; [reflexivity | split; [reflexivity |]]].
  destruct (empty_transcript_is_archived_under_None p eq_refl eq_refl eq_refl)
    as (H1 & H2 & _).
  split; [exact H1 | exact H2].
Defined.

(** *** The [DATABASE] assignment *)

(** X14. [_safe_load_config] takes the first single-target assignment to the
    name [DATABASE] and nothing else: the statements before it are skipped,
    those after it are not looked at, even when its value is not a literal
    and a later assignment would be. Without such an assignment the load is a
    [ValueError]. *)
Theorem first_DATABASE_assignment_decides
    (before after : list stmt) (e : expr) :
  Forall (fun st => assigns_DATABASE st = false) before →
  find_DATABASE (before ++ Assign [Name "DATABASE"] e :: after) = literal_eval e ∧
  find_DATABASE before = Err ValueError.
Proof.
  intros Hbefore.
  induction Hbefore as [| st before Hst _ [IH1 IH2]]; [split; reflexivity |].
  assert (Hskip : ∀ rest, find_DATABASE (st :: rest) = find_DATABASE rest).
  { intros rest. destruct st as [targets v |]; [| reflexivity].
    destruct targets as [| target others]; [reflexivity |].
    destruct target, others; try reflexivity.
    cbn [assigns_DATABASE] in Hst. cbn [find_DATABASE]. rewrite Hst. reflexivity. }
  cbn [app]. rewrite !Hskip. auto.
Qed.

Lemma first_DATABASE_assignment_decides_witness :
  let before := [ OtherStmt;
                  Assign [Name "DEBUG"] (Constant (CBool true));
                  Assign [Name "a"; Name "DATABASE"] (Dict []) ] in
  let after := [ Assign [Name "DATABASE"] (Dict []) ] in
  Forall (fun st => assigns_DATABASE st = false) before ∧
  find_DATABASE (before ++ Assign [Name "DATABASE"] (Name "os") :: after) = Err ValueError ∧
  find_DATABASE before = Err ValueError.
Proof.
  intros before after.
  assert (H : Forall (fun st => assigns_DATABASE st = false) before)
    by (repeat constructor).
  split; [exact H |].
  exact (first_DATABASE_assignment_decides before after (Name "os") H).
Defined.

(** *** Leaving at once *)








Lemma only_k_writes_settings_only_n_archives_witness :
  let w := sample_world true "deepseek-chat" (Some (Json [user "earlier"])) in
  let argv := {| opt_n := false; opt_k := None; opt_b := true; opt_r := true;
                 opt_m := true; opt_s := false; opt_t := Some (Finite (1 # 2)); opt_d := true |} in
  let r := run w argv (streaming [answer "Hi"]) [Line "hello"; Line "quit"] in
  opt_k argv = None ∧ opt_n argv = false ∧
  settings (final_world r) = settings w ∧ cwd (final_world r) = cwd w.
Proof.
  intros w argv r. split; [reflexivity | split; [reflexivity |]].
  destruct (only_k_writes_settings_only_n_archives w argv (streaming [answer "Hi"])
              [Line "hello"; Line "quit"]) as [H1 H2].
  split; [apply H1 | apply H2]; reflexivity.
Defined.

(** ** What is sent to the service *)

Lemma streamed_turn_alike (svc svc' : Service) (p : Process) (s : value)
    (ms : list Message) (message : string) :
  alike (config (manager p)) svc svc' →
  dict_lookup (VStr "stream") (config (manager p)) = Some s → truthy s = true →
  is_quit message = false →
  messages (manager p) = (ms ++ [user message])%list →
  streamed_turn svc p = streamed_turn svc' p.
Proof.
  intros Ha Hs Hts Hq Hms. unfold streamed_turn.
  destruct (dict_lookup (VStr "model") (config (manager p))) as [m |] eqn:Hm.
  2:{ rewrite !bind_config_getitem_missing by exact Hm. reflexivity. }
  rewrite !(bind_config_getitem "model" m) by exact Hm.
  rewrite !bind_get_manager.
  destruct (dict_lookup (VStr "temperature") (config (manager p))) as [t |] eqn:Ht.
  2:{ rewrite !bind_config_getitem_missing by exact Ht. reflexivity. }
  rewrite !(bind_config_getitem "temperature" t) by exact Ht.
  set (r := {| model := m; request_messages := messages (manager p); stream := true;
               temperature := t |}).
  assert (Hsend : sendable (config (manager p)) r).
  { split; cbn [r model temperature stream request_messages].
    - exact Hm.
    - exact Ht.
    - rewrite Hs. cbn. rewrite Hts. reflexivity.
    - exists ms, message. split; [exact Hq | exact Hms]. }
  pose proof (Ha r Hsend) as Hr. cbn [r stream] in Hr. rewrite Hr. reflexivity.
Qed.

Lemma plain_turn_alike (svc svc' : Service) (p : Process) (s : value)
    (ms : list Message) (message : string) :
  alike (config (manager p)) svc svc' →
  dict_lookup (VStr "stream") (config (manager p)) = Some s → truthy s = false →
  is_quit message = false →
  messages (manager p) = (ms ++ [user message])%list →
  plain_turn svc p = plain_turn svc' p.
Proof.
  intros Ha Hs Hts Hq Hms. unfold plain_turn.
  destruct (dict_lookup (VStr "model") (config (manager p))) as [m |] eqn:Hm.
  2:{ rewrite !bind_config_getitem_missing by exact Hm. reflexivity. }
  rewrite !(bind_config_getitem "model" m) by exact Hm.
  rewrite !bind_get_manager.
  destruct (dict_lookup (VStr "temperature") (config (manager p))) as [t |] eqn:Ht.
  2:{ rewrite !bind_config_getitem_missing by exact Ht. reflexivity. }
  rewrite !(bind_config_getitem "temperature" t) by exact Ht.
  set (r := {| model := m; request_messages := messages (manager p); stream := false;
               temperature := t |}).
  assert (Hsend : sendable (config (manager p)) r).
  { split; cbn [r model temperature stream request_messages].
    - exact Hm.
    - exact Ht.
    - rewrite Hs. cbn. rewrite Hts. reflexivity.
    - exists ms, message. split; [exact Hq | exact Hms]. }
  pose proof (Ha r Hsend) as Hr. cbn [r stream] in Hr. rewrite Hr. reflexivity.
Qed.

Lemma chat_loop_alike (svc svc' : Service) (script : list prompted) (p : Process) :
  alike (config (manager p)) svc svc' →
  chat_loop svc script p = chat_loop svc' script p.
Proof.
  revert p. induction script as [| [message | sg | e] script IH]; intros p Ha;
    cbn [chat_loop]; try reflexivity.
  destruct (is_quit message) eqn:Hq; [reflexivity |].
  rewrite !bind_append. fold (user message).
  set (p1 := appended (user message) p).
  assert (Hc1 : config (manager p1) = config (manager p)) by reflexivity.
  destruct (dict_lookup (VStr "stream") (config (manager p1))) as [s |] eqn:Hs.
  2:{ rewrite !bind_config_getitem_missing by exact Hs. reflexivity. }
  rewrite !(bind_config_getitem "stream" s) by exact Hs.
  set (turn := fun sv => if truthy s then streamed_turn sv else plain_turn sv).
  change (bind (turn svc) (fun _ => chat_loop svc script) p1
          = bind (turn svc') (fun _ => chat_loop svc' script) p1).
  assert (Hturn : turn svc p1 = turn svc' p1).
  { unfold turn. destruct (truthy s) eqn:Hts.
    - apply (streamed_turn_alike svc svc' p1 s (messages (manager p)) message);
        [rewrite Hc1; exact Ha | exact Hs | exact Hts | exact Hq | reflexivity].
    - apply (plain_turn_alike svc svc' p1 s (messages (manager p)) message);
        [rewrite Hc1; exact Ha | exact Hs | exact Hts | exact Hq | reflexivity]. }
  assert (Hout : ∃ q, quiet p1 q ∧
    ((∃ c, turn svc' p1 = (Return tt, appended (assistant c) q)) ∨
     (∃ e, turn svc' p1 = (Raise e, q)) ∨
     turn svc' p1 = (SystemExit (Status 0), saved_state q))).
  { unfold turn. destruct (truthy s); [apply streamed_turn_outcome | apply plain_turn_outcome]. }
  destruct Hout as (q & [Hm _ _ _] & [[c Hc] | [[e He] | Hx]]).
  - assert (E : ∀ sv, turn sv p1 = turn svc' p1 →
              bind (turn sv) (fun _ => chat_loop sv script) p1
              = chat_loop sv script (appended (assistant c) q)).
    { intros sv H. unfold bind. rewrite H, Hc. reflexivity. }
    rewrite (E svc Hturn), (E svc' eq_refl). apply IH.
    cbn [appended manager set_messages config]. rewrite Hm, Hc1. exact Ha.
  - unfold bind. rewrite Hturn, He. reflexivity.
  - unfold bind. rewrite Hturn, Hx. reflexivity.
Qed.

Lemma dispatch_alike (args : Namespace.t) (svc svc' : Service) (script : list prompted)
    (q : Process) :
  alike (config (manager q)) svc svc' →
  dispatch args svc script q = dispatch args svc' script q.
Proof.
  intros Ha.
  destruct (truthy (Namespace.key args)) eqn:Hkey;
    [unfold dispatch; rewrite Hkey; reflexivity |].
  rewrite !dispatch_eq by exact Hkey.
  assert (Hafter : ∀ q', config (manager q') = config (manager q) →
            after_archive args svc script q' = after_archive args svc' script q').
  { intros q' Hc. unfold after_archive.
    destruct (truthy (Namespace.status args)); [reflexivity |].
    destruct (dict_lookup (VStr "api_key") (config (manager q'))) as [k |] eqn:Hk.
    2:{ rewrite !bind_config_getitem_missing by exact Hk. reflexivity. }
    rewrite !(bind_config_getitem "api_key" k) by exact Hk.
    destruct (dict_lookup (VStr "base_url") (config (manager q'))) as [u |] eqn:Hu.
    2:{ rewrite !bind_config_getitem_missing by exact Hu. reflexivity. }
    rewrite !(bind_config_getitem "base_url" u) by exact Hu.
    rewrite !bind_new_client.
    destruct (client_error (world q') k u); [reflexivity |].
    apply chat_loop_alike. rewrite Hc. exact Ha. }
  destruct (truthy (Namespace.new args)); cbn [when].
  - unfold bind. pose proof (save_messages_eq q) as Hs. cbv zeta in Hs. rewrite Hs.
    destruct (has_char "000"%char _); [reflexivity |].
    destruct (has_char "/"%char _); [reflexivity |].
    apply Hafter. reflexivity.
  - rewrite !bind_ret. apply Hafter. reflexivity.
Qed.

(** X18. A run depends on the service only through its answers to the
    requests the program builds: the model and the temperature of the
    configuration as the flags left it, the stream flag of the mode in use
    (and the call that goes with it), and a list of messages that ends with
    what the user just typed. Two services that agree on these requests give
    the same run, whatever they answer to any other request. *)
Theorem run_sends_only_configured_requests
    (w : World) (argv : Argv) (svc svc' : Service) (script : list prompted)
    (mgr : ConfigManager) :
  ConfigManager_init w = Return mgr →
  alike (apply_flags (parse_args argv) (config mgr)) svc svc' →
  run w argv svc script = run w argv svc' script.
Proof.
  intros Hinit Ha. rewrite !(run_eq _ _ _ _ _ Hinit). f_equal.
  rewrite !main_eq, !load_transcript_then.
  set (p1 := with_config _ (start mgr w)).
  assert (Hc : config (manager p1) = apply_flags (parse_args argv) (config mgr))
    by reflexivity.
  destruct (truthy (dict_get "memory" (VBool true) (config (manager p1)))).
  - destruct (latest (world p1)) as [[| ms] |]; try reflexivity.
    apply dispatch_alike. cbn [loaded manager set_messages config]. rewrite Hc. exact Ha.
  - apply dispatch_alike. rewrite Hc. exact Ha.
Qed.

Lemma run_sends_only_configured_requests_witness :
  let w := sample_world true "deepseek-chat" (Some (Json [user "earlier"; assistant "reply"])) in
  let script := [Line "hello"; Line "more"; Line "quit"] in
  run w flag_m (streaming [answer "Hi"]) script
  = run w flag_m (streaming_for "deepseek-chat" [answer "Hi"]) script.
Proof.
  intros w script.
  refine (run_sends_only_configured_requests w flag_m _ _ script _
            (witness_init true "deepseek-chat" _) _).
  intros r [Hm _ _ _].
  change (Some (VStr "deepseek-chat") = Some (model r)) in Hm. injection Hm as Hm.
  destruct (stream r); [| reflexivity].
  cbn [streaming streaming_for create_stream]. rewrite <- Hm. reflexivity.
Defined.

(** ** The temperature flag *)

(** X19. Without a key ([-k] absent, or given as the empty string), [-t] has
    no effect at all: the run is the same whatever temperature the command
    line gives, and the requests carry the temperature of the settings file.
    The value of [-t] is used only for the settings file that [-k] writes. *)
Theorem temperature_flag_is_ignored_without_a_key
    (w : World) (argv : Argv) (t : option float) (svc : Service) (script : list prompted) :
  truthy (Namespace.key (parse_args argv)) = false →
  run w (with_t t argv) svc script = run w argv svc script.
Proof.
  intros Hkey. unfold run.
  destruct (ConfigManager_init w) as [mgr | arg | e]; try reflexivity.
  f_equal. rewrite !main_eq, !load_transcript_then.
  change (apply_flags (parse_args (with_t t argv))) with (apply_flags (parse_args argv)).
  set (p1 := with_config _ (start mgr w)).
  assert (Hd : ∀ q, dispatch (parse_args (with_t t argv)) svc script q
                    = dispatch (parse_args argv) svc script q).
  { intros q. rewrite !dispatch_eq by exact Hkey. reflexivity. }
  destruct (truthy (dict_get "memory" (VBool true) (config (manager p1))));
    [| apply Hd].
  destruct (latest (world p1)) as [[| ms] |]; try reflexivity. apply Hd.
Qed.

Lemma temperature_flag_is_ignored_without_a_key_witness :
  let w := sample_world true "deepseek-chat" (Some (Json [user "earlier"; assistant "reply"])) in
  let script := [Line "hello"; Line "quit"] in
  truthy (Namespace.key (parse_args flag_m)) = false ∧
  run w (with_t (Some (Finite (3 # 2))) flag_m) (streaming [answer "Hi"]) script
  = run w flag_m (streaming [answer "Hi"]) script.
Proof.
  intros w script. split; [reflexivity |].
  exact (temperature_flag_is_ignored_without_a_key w flag_m (Some (Finite (3 # 2)))
           (streaming [answer "Hi"]) script eq_refl).
Defined.
